(** * PixShop: the edit history, the mask layers and the crop path of [App]

    A shallow embedding of the controller that lives in the [App] component
    (the history of image versions with undo / redo / reset, the two mask
    canvases and their content flags, the crop handler, the output size
    controls of [CropPanel] and the prompt ledger), followed by the
    properties of the specification that concern them.

    Conventions of the embedding.
    - React state is one record, [AppState]; every [setX] of the source is a
      field update, and a handler is a function from the state it closes over
      to the state after its updates are applied.
    - What the browser or the network answers (the decoded image element, the
      pixels a canvas holds after a [drawImage], the reply of the generation
      service, [Date.now()]) is an argument of the handler.
    - An asynchronous handler is run to completion: the interleaving of a
      pending request with other events is outside this development.
    - The two mask canvases are the cells behind [editMaskCanvasRef] and
      [preserveMaskCanvasRef]. Which elements a render mounts is React's
      business: mounting and unmounting are events of their own.
    - JavaScript numbers that are array indices and pixel counts are [Z];
      the crop rectangle and the device pixel ratio, which are fractional in
      general, are [Q]. *)

From Stdlib Require Import String Ascii DecimalString DecimalNat ZArith QArith Qround List Bool
  Lia Lqa.
From Equations Require Import Equations.
Import ListNotations.

Local Open Scope string_scope.
Local Open Scope list_scope.
Local Open Scope Z_scope.

(** ** The fragments of JavaScript the source relies on *)

Module Js.

(** [arr.slice(start, end)]: a negative bound counts from the end of the
    array, and both bounds are clamped to [0 .. length]. *)
Definition clampIndex (len k : Z) : Z :=
  if k <? 0 then Z.max (len + k) 0 else Z.min k len.

Definition slice {A : Type} (arr : list A) (start stop : Z) : list A :=
  let len := Z.of_nat (length arr) in
  let k := clampIndex len start in
  let final := clampIndex len stop in
  firstn (Z.to_nat (Z.max (final - k) 0)) (skipn (Z.to_nat k) arr).

(** [arr.push(x)] on a fresh copy. *)
Definition push {A : Type} (arr : list A) (x : A) : list A := arr ++ [x].

(** [arr[i] ?? null]: reading outside the array gives [undefined]. *)
Definition index {A : Type} (arr : list A) (i : Z) : option A :=
  if i <? 0 then None else nth_error arr (Z.to_nat i).

(** White space and line terminators that [String.prototype.trim] and
    [parseInt] strip, in the ASCII range. *)
Definition isWhiteSpace (c : ascii) : bool :=
  let n := nat_of_ascii c in
  ((9 <=? n) && (n <=? 13))%nat || (n =? 32)%nat.

Fixpoint trimStart (s : string) : string :=
  match s with
  | EmptyString => EmptyString
  | String c rest => if isWhiteSpace c then trimStart rest else s
  end.

Fixpoint rev_string (s acc : string) : string :=
  match s with
  | EmptyString => acc
  | String c rest => rev_string rest (String c acc)
  end.

Definition trimEnd (s : string) : string :=
  rev_string (trimStart (rev_string s EmptyString)) EmptyString.

Definition trim (s : string) : string := trimEnd (trimStart s).

(** Truthiness of a string: only the empty string is falsy. *)
Definition truthy (s : string) : bool :=
  match s with EmptyString => false | _ => true end.

Definition digitValue (c : ascii) : option Z :=
  let n := nat_of_ascii c in
  if ((48 <=? n) && (n <=? 57))%nat then Some (Z.of_nat n - 48) else None.

(** The longest prefix of decimal digits, read as a number; [None] when
    there is no digit at all. *)
Fixpoint digits (s : string) (acc : option Z) : option Z :=
  match s with
  | EmptyString => acc
  | String c rest =>
      match digitValue c with
      | Some d =>
          digits rest (Some (10 * match acc with Some a => a | None => 0 end + d))
      | None => acc
      end
  end.

(** [parseInt(s, 10)]; [None] stands for [NaN]. *)
Definition parseInt (s : string) : option Z :=
  match trimStart s with
  | String "-" rest => option_map Z.opp (digits rest None)
  | String "+" rest => digits rest None
  | t => digits t None
  end.

(** [parseInt(s, 10) || 0]: [NaN] and [0] are both falsy. *)
Definition parseIntOrZero (s : string) : Z :=
  match parseInt s with
  | Some n => n
  | None => 0
  end.

(** [Math.round]: the nearest integer, halves going up. *)
Definition round (q : Q) : Z := Qfloor (q + (1 # 2))%Q.

End Js.

(** ** Rasters, files and canvases *)

(** One RGBA sample of an [ImageData]; channels are bytes. *)
Record RGBA := mkRGBA { red : N; green : N; blue : N; alpha : N }.

Definition transparentBlack : RGBA := mkRGBA 0 0 0 0.

(** What a [File] decodes to. The data URL of a canvas without pixels is
    ["data:,"], which is not an image. *)
Inductive FileContent :=
| ImageContent (width height : Z) (pixels : list RGBA)
| NotAnImage.

Record File := mkFile { file_name : string; file_content : FileContent }.

(** [getImageDimensions]: resolves with the natural size of the file once
    the browser has decoded it, and rejects otherwise. A decoded image has at
    least one pixel in each direction. *)
Definition getImageDimensions (f : File) : option (Z * Z) :=
  match file_content f with
  | ImageContent w h _ => if (0 <? w) && (0 <? h) then Some (w, h) else None
  | NotAnImage => None
  end.

(** A canvas element: its backing size and its bitmap in row order. *)
Record Canvas := mkCanvas { cv_width : Z; cv_height : Z; cv_pixels : list RGBA }.

(** [ctx.clearRect(0, 0, canvas.width, canvas.height)]. *)
Definition clearRect (c : Canvas) : Canvas :=
  mkCanvas (cv_width c) (cv_height c) (map (fun _ => transparentBlack) (cv_pixels c)).

(** [ctx.getImageData(0, 0, w, h).data]: four bytes per pixel. *)
Definition imageDataOf (px : list RGBA) : list N :=
  flat_map (fun p => [red p; green p; blue p; alpha p]) px.

(** [canvas.toDataURL('image/png')] followed by [dataURLtoFile]. *)
Definition canvasToFile (name : string) (c : Canvas) : File :=
  if (cv_width c <=? 0) || (cv_height c <=? 0)
  then mkFile name NotAnImage
  else mkFile name (ImageContent (cv_width c) (cv_height c) (cv_pixels c)).

(** The alpha scan shared by [checkCanvasContent] and [scaleAndExportMask]:
<<
   for (let i = 3; i < data.length; i += 4) { if (data[i] > 0) return true; }
   return false;
>> *)
Equations? alphaScan (data : list N) (i : nat) : bool by wf (length data - i)%nat lt :=
  alphaScan data i with lt_dec i (length data) => {
    | left _ => if (0 <? nth i data 0)%N then true else alphaScan data (i + 4)
    | right _ => false }.
Proof. lia. Qed.

Definition checkCanvasContent (canvas : option Canvas) : bool :=
  match canvas with
  | None => false
  | Some c => alphaScan (imageDataOf (cv_pixels c)) 3
  end.

(** ** The state of [App] *)

Inductive Tab := retouch | adjust | filters | crop.

Inductive MaskTool := brush | magic_preserve | eraser.

(** [Exclude<Tab, 'crop'>]: the kinds of entry the prompt ledger holds. *)
Inductive LedgerKind := ledger_retouch | ledger_adjust | ledger_filters.

Definition tabOfKind (k : LedgerKind) : Tab :=
  match k with
  | ledger_retouch => retouch
  | ledger_adjust => adjust
  | ledger_filters => filters
  end.

Record HistoryItem := mkItem { item_type : LedgerKind; item_prompt : string }.

Record OutputSize := mkSize { width : Z; height : Z }.

(** [PixelCrop] of react-image-crop, in CSS pixels of the displayed image. *)
Record PixelCrop := mkCrop { crop_x : Q; crop_y : Q; crop_width : Q; crop_height : Q }.

(** The [<img>] behind [imgRef]: natural and displayed size. *)
Record ImageElement := mkImg
  { naturalWidth : Z; naturalHeight : Z; img_width : Q; img_height : Q }.

(** The state of the component that the properties below depend on. The
    [crop] state of the source is [cropSelection] here, [crop] being a tab.
    Left out: the loading message, the aspect ratio, the comparison toggle,
    the brush size, the last pointer position and the modals other than the
    size warning. *)
Record AppState := mkApp
  { history : list File;
    historyIndex : Z;
    prompt : string;
    isLoading : bool;
    error : option string;
    activeTab : Tab;
    cropSelection : option PixelCrop;
    completedCrop : option PixelCrop;
    outputSize : option OutputSize;
    fileToProcess : option File;
    isSizeWarningModalOpen : bool;
    editMaskCanvas : option Canvas;
    preserveMaskCanvas : option Canvas;
    isDrawing : bool;
    maskTool : MaskTool;
    hasEditMask : bool;
    hasPreserveMask : bool;
    promptHistory : list HistoryItem;
    customAdjustmentPrompt : string;
    customFilterPrompt : string }.

(** The state [useState] and [useRef] start from. The canvases are mounted
    blank by the first render of the retouch tab. *)
Definition initialState : AppState :=
  {| history := []; historyIndex := -1; prompt := ""; isLoading := false;
     error := None; activeTab := retouch; cropSelection := None;
     completedCrop := None; outputSize := None; fileToProcess := None;
     isSizeWarningModalOpen := false;
     editMaskCanvas := None; preserveMaskCanvas := None;
     isDrawing := false; maskTool := brush;
     hasEditMask := false; hasPreserveMask := false;
     promptHistory := []; customAdjustmentPrompt := "";
     customFilterPrompt := "" |}.

(** The state setters. *)
Definition setHistory (v : list File) (s : AppState) : AppState :=
  mkApp v (historyIndex s) (prompt s) (isLoading s) (error s) (activeTab s)
    (cropSelection s) (completedCrop s) (outputSize s) (fileToProcess s)
    (isSizeWarningModalOpen s) (editMaskCanvas s) (preserveMaskCanvas s)
    (isDrawing s) (maskTool s) (hasEditMask s) (hasPreserveMask s)
    (promptHistory s) (customAdjustmentPrompt s) (customFilterPrompt s).

Definition setHistoryIndex (v : Z) (s : AppState) : AppState :=
  mkApp (history s) v (prompt s) (isLoading s) (error s) (activeTab s)
    (cropSelection s) (completedCrop s) (outputSize s) (fileToProcess s)
    (isSizeWarningModalOpen s) (editMaskCanvas s) (preserveMaskCanvas s)
    (isDrawing s) (maskTool s) (hasEditMask s) (hasPreserveMask s)
    (promptHistory s) (customAdjustmentPrompt s) (customFilterPrompt s).

Definition setPrompt (v : string) (s : AppState) : AppState :=
  mkApp (history s) (historyIndex s) v (isLoading s) (error s) (activeTab s)
    (cropSelection s) (completedCrop s) (outputSize s) (fileToProcess s)
    (isSizeWarningModalOpen s) (editMaskCanvas s) (preserveMaskCanvas s)
    (isDrawing s) (maskTool s) (hasEditMask s) (hasPreserveMask s)
    (promptHistory s) (customAdjustmentPrompt s) (customFilterPrompt s).

Definition setIsLoading (v : bool) (s : AppState) : AppState :=
  mkApp (history s) (historyIndex s) (prompt s) v (error s) (activeTab s)
    (cropSelection s) (completedCrop s) (outputSize s) (fileToProcess s)
    (isSizeWarningModalOpen s) (editMaskCanvas s) (preserveMaskCanvas s)
    (isDrawing s) (maskTool s) (hasEditMask s) (hasPreserveMask s)
    (promptHistory s) (customAdjustmentPrompt s) (customFilterPrompt s).

Definition setError (v : option string) (s : AppState) : AppState :=
  mkApp (history s) (historyIndex s) (prompt s) (isLoading s) v (activeTab s)
    (cropSelection s) (completedCrop s) (outputSize s) (fileToProcess s)
    (isSizeWarningModalOpen s) (editMaskCanvas s) (preserveMaskCanvas s)
    (isDrawing s) (maskTool s) (hasEditMask s) (hasPreserveMask s)
    (promptHistory s) (customAdjustmentPrompt s) (customFilterPrompt s).

Definition setActiveTab (v : Tab) (s : AppState) : AppState :=
  mkApp (history s) (historyIndex s) (prompt s) (isLoading s) (error s) v
    (cropSelection s) (completedCrop s) (outputSize s) (fileToProcess s)
    (isSizeWarningModalOpen s) (editMaskCanvas s) (preserveMaskCanvas s)
    (isDrawing s) (maskTool s) (hasEditMask s) (hasPreserveMask s)
    (promptHistory s) (customAdjustmentPrompt s) (customFilterPrompt s).

Definition setCrop (v : option PixelCrop) (s : AppState) : AppState :=
  mkApp (history s) (historyIndex s) (prompt s) (isLoading s) (error s)
    (activeTab s) v (completedCrop s) (outputSize s) (fileToProcess s)
    (isSizeWarningModalOpen s) (editMaskCanvas s) (preserveMaskCanvas s)
    (isDrawing s) (maskTool s) (hasEditMask s) (hasPreserveMask s)
    (promptHistory s) (customAdjustmentPrompt s) (customFilterPrompt s).

Definition setCompletedCrop (v : option PixelCrop) (s : AppState) : AppState :=
  mkApp (history s) (historyIndex s) (prompt s) (isLoading s) (error s)
    (activeTab s) (cropSelection s) v (outputSize s) (fileToProcess s)
    (isSizeWarningModalOpen s) (editMaskCanvas s) (preserveMaskCanvas s)
    (isDrawing s) (maskTool s) (hasEditMask s) (hasPreserveMask s)
    (promptHistory s) (customAdjustmentPrompt s) (customFilterPrompt s).

Definition setOutputSize (v : option OutputSize) (s : AppState) : AppState :=
  mkApp (history s) (historyIndex s) (prompt s) (isLoading s) (error s)
    (activeTab s) (cropSelection s) (completedCrop s) v (fileToProcess s)
    (isSizeWarningModalOpen s) (editMaskCanvas s) (preserveMaskCanvas s)
    (isDrawing s) (maskTool s) (hasEditMask s) (hasPreserveMask s)
    (promptHistory s) (customAdjustmentPrompt s) (customFilterPrompt s).

Definition setFileToProcess (v : option File) (s : AppState) : AppState :=
  mkApp (history s) (historyIndex s) (prompt s) (isLoading s) (error s)
    (activeTab s) (cropSelection s) (completedCrop s) (outputSize s) v
    (isSizeWarningModalOpen s) (editMaskCanvas s) (preserveMaskCanvas s)
    (isDrawing s) (maskTool s) (hasEditMask s) (hasPreserveMask s)
    (promptHistory s) (customAdjustmentPrompt s) (customFilterPrompt s).

Definition setIsSizeWarningModalOpen (v : bool) (s : AppState) : AppState :=
  mkApp (history s) (historyIndex s) (prompt s) (isLoading s) (error s)
    (activeTab s) (cropSelection s) (completedCrop s) (outputSize s)
    (fileToProcess s) v (editMaskCanvas s) (preserveMaskCanvas s)
    (isDrawing s) (maskTool s) (hasEditMask s) (hasPreserveMask s)
    (promptHistory s) (customAdjustmentPrompt s) (customFilterPrompt s).

(** Writing through [editMaskCanvasRef.current] and
    [preserveMaskCanvasRef.current]. *)
Definition setEditMaskCanvas (v : option Canvas) (s : AppState) : AppState :=
  mkApp (history s) (historyIndex s) (prompt s) (isLoading s) (error s)
    (activeTab s) (cropSelection s) (completedCrop s) (outputSize s)
    (fileToProcess s) (isSizeWarningModalOpen s) v (preserveMaskCanvas s)
    (isDrawing s) (maskTool s) (hasEditMask s) (hasPreserveMask s)
    (promptHistory s) (customAdjustmentPrompt s) (customFilterPrompt s).

Definition setPreserveMaskCanvas (v : option Canvas) (s : AppState) : AppState :=
  mkApp (history s) (historyIndex s) (prompt s) (isLoading s) (error s)
    (activeTab s) (cropSelection s) (completedCrop s) (outputSize s)
    (fileToProcess s) (isSizeWarningModalOpen s) (editMaskCanvas s) v
    (isDrawing s) (maskTool s) (hasEditMask s) (hasPreserveMask s)
    (promptHistory s) (customAdjustmentPrompt s) (customFilterPrompt s).

Definition setIsDrawing (v : bool) (s : AppState) : AppState :=
  mkApp (history s) (historyIndex s) (prompt s) (isLoading s) (error s)
    (activeTab s) (cropSelection s) (completedCrop s) (outputSize s)
    (fileToProcess s) (isSizeWarningModalOpen s) (editMaskCanvas s)
    (preserveMaskCanvas s) v (maskTool s) (hasEditMask s) (hasPreserveMask s)
    (promptHistory s) (customAdjustmentPrompt s) (customFilterPrompt s).

Definition setMaskTool (v : MaskTool) (s : AppState) : AppState :=
  mkApp (history s) (historyIndex s) (prompt s) (isLoading s) (error s)
    (activeTab s) (cropSelection s) (completedCrop s) (outputSize s)
    (fileToProcess s) (isSizeWarningModalOpen s) (editMaskCanvas s)
    (preserveMaskCanvas s) (isDrawing s) v (hasEditMask s) (hasPreserveMask s)
    (promptHistory s) (customAdjustmentPrompt s) (customFilterPrompt s).

Definition setHasEditMask (v : bool) (s : AppState) : AppState :=
  mkApp (history s) (historyIndex s) (prompt s) (isLoading s) (error s)
    (activeTab s) (cropSelection s) (completedCrop s) (outputSize s)
    (fileToProcess s) (isSizeWarningModalOpen s) (editMaskCanvas s)
    (preserveMaskCanvas s) (isDrawing s) (maskTool s) v (hasPreserveMask s)
    (promptHistory s) (customAdjustmentPrompt s) (customFilterPrompt s).

Definition setHasPreserveMask (v : bool) (s : AppState) : AppState :=
  mkApp (history s) (historyIndex s) (prompt s) (isLoading s) (error s)
    (activeTab s) (cropSelection s) (completedCrop s) (outputSize s)
    (fileToProcess s) (isSizeWarningModalOpen s) (editMaskCanvas s)
    (preserveMaskCanvas s) (isDrawing s) (maskTool s) (hasEditMask s) v
    (promptHistory s) (customAdjustmentPrompt s) (customFilterPrompt s).

Definition setPromptHistory (v : list HistoryItem) (s : AppState) : AppState :=
  mkApp (history s) (historyIndex s) (prompt s) (isLoading s) (error s)
    (activeTab s) (cropSelection s) (completedCrop s) (outputSize s)
    (fileToProcess s) (isSizeWarningModalOpen s) (editMaskCanvas s)
    (preserveMaskCanvas s) (isDrawing s) (maskTool s) (hasEditMask s)
    (hasPreserveMask s) v (customAdjustmentPrompt s) (customFilterPrompt s).

Definition setCustomAdjustmentPrompt (v : string) (s : AppState) : AppState :=
  mkApp (history s) (historyIndex s) (prompt s) (isLoading s) (error s)
    (activeTab s) (cropSelection s) (completedCrop s) (outputSize s)
    (fileToProcess s) (isSizeWarningModalOpen s) (editMaskCanvas s)
    (preserveMaskCanvas s) (isDrawing s) (maskTool s) (hasEditMask s)
    (hasPreserveMask s) (promptHistory s) v (customFilterPrompt s).

Definition setCustomFilterPrompt (v : string) (s : AppState) : AppState :=
  mkApp (history s) (historyIndex s) (prompt s) (isLoading s) (error s)
    (activeTab s) (cropSelection s) (completedCrop s) (outputSize s)
    (fileToProcess s) (isSizeWarningModalOpen s) (editMaskCanvas s)
    (preserveMaskCanvas s) (isDrawing s) (maskTool s) (hasEditMask s)
    (hasPreserveMask s) (promptHistory s) (customAdjustmentPrompt s) v.

(** The updates of a handler are written in the order of the source. *)
Local Notation "s |> f" := (f s) (at level 45, left associativity, only parsing).

(** ** Values derived at each render *)

Definition MAX_IMAGE_DIMENSION : Z := 2048.

Definition currentImage (s : AppState) : option File :=
  Js.index (history s) (historyIndex s).

Definition originalImage (s : AppState) : option File :=
  Js.index (history s) 0.

Definition canUndo (s : AppState) : bool := 0 <? historyIndex s.

Definition canRedo (s : AppState) : bool :=
  historyIndex s <? Z.of_nat (length (history s)) - 1.

(** ** The mask layers *)

Definition clearMasks (s : AppState) : AppState :=
  s |> setEditMaskCanvas (option_map clearRect (editMaskCanvas s))
    |> setPreserveMaskCanvas (option_map clearRect (preserveMaskCanvas s))
    |> setHasEditMask false
    |> setHasPreserveMask false.

(** A [drawImage] that rescales its source to [w] by [h]: the pixels it
    leaves in the destination are the browser's. *)
Definition Resampler := Canvas -> Z -> Z -> list RGBA.

(** The outcome of [scaleAndExportMask]: [null], a file, or an exception
    raised by the canvas API. *)
Inductive Exported :=
| ExportedNull
| ExportedFile (f : File)
| ExportThrows (message : string).

(** [getImageData(0, 0, 1, 1).data[3]]. *)
Definition firstAlpha (px : list RGBA) : N :=
  match px with
  | p :: _ => alpha p
  | [] => 0%N
  end.

(** [scaleAndExportMask], with the image element it closes over. The
    temporary canvas always yields a 2D context; [drawImage] throws on a
    source canvas without pixels, [toDataURL] of a canvas without pixels is
    ["data:,"], and [getImageData] throws on an empty rectangle. *)
Definition scaleAndExportMask (drawImage : Resampler) (img : ImageElement)
    (sourceCanvas : option Canvas) : Exported :=
  match sourceCanvas with
  | None => ExportedNull
  | Some source =>
      if (cv_width source <=? 0) || (cv_height source <=? 0)
      then ExportThrows "InvalidStateError"
      else
        let tempCanvas :=
          mkCanvas (naturalWidth img) (naturalHeight img)
            (drawImage source (naturalWidth img) (naturalHeight img)) in
        let noDataUrl := (cv_width tempCanvas <=? 0) || (cv_height tempCanvas <=? 0) in
        if noDataUrl || (firstAlpha (cv_pixels tempCanvas) =? 0)%N
        then
          if noDataUrl then ExportThrows "IndexSizeError"
          else
            let blankData := imageDataOf (cv_pixels tempCanvas) in
            let isTrulyEmpty := negb (alphaScan blankData 3) in
            if isTrulyEmpty then ExportedNull
            else ExportedFile (canvasToFile "mask.png" tempCanvas)
        else ExportedFile (canvasToFile "mask.png" tempCanvas)
  end.

(** ** The history of versions and the prompt ledger *)

Definition addImageToHistory (newImageFile : File) (s : AppState) : AppState :=
  let newHistory :=
    Js.push (Js.slice (history s) 0 (historyIndex s + 1)) newImageFile in
  s |> setHistory newHistory
    |> setHistoryIndex (Z.of_nat (length newHistory) - 1)
    |> setCrop None
    |> setCompletedCrop None.

Definition addPromptToHistory (type : LedgerKind) (text : string)
    (s : AppState) : AppState :=
  s |> setPromptHistory (promptHistory s ++ [mkItem type text]).

(** ** Upload *)

Definition proceedWithImageUpload (file : File) (s : AppState) : AppState :=
  match getImageDimensions file with
  | Some (w, h) =>
      s |> setOutputSize (Some (mkSize w h))
        |> setHistory [file]
        |> setHistoryIndex 0
        |> setActiveTab retouch
        |> setCrop None
        |> setCompletedCrop None
        |> setPromptHistory []
        |> setCustomAdjustmentPrompt ""
        |> setCustomFilterPrompt ""
        |> clearMasks
  | None =>
      s |> setError (Some "Não foi possível carregar as dimensões da imagem.")
  end.

Definition handleImageUpload (file : File) (s : AppState) : AppState :=
  let s := s |> setError None in
  match getImageDimensions file with
  | Some (w, h) =>
      if (MAX_IMAGE_DIMENSION <? w) || (MAX_IMAGE_DIMENSION <? h)
      then s |> setFileToProcess (Some file) |> setIsSizeWarningModalOpen true
      else proceedWithImageUpload file s
  | None =>
      s |> setError (Some "Não foi possível carregar as dimensões da imagem.")
  end.

(** The size [resizeImageFile] gives its canvas. *)
Definition resizedDimensions (w h maxSize : Z) : Z * Z :=
  let aspectRatio := (inject_Z w / inject_Z h)%Q in
  let '(w', h') :=
    if (maxSize <? w) || (maxSize <? h)
    then
      if h <? w
      then (inject_Z maxSize, (inject_Z maxSize / aspectRatio)%Q)
      else ((inject_Z maxSize * aspectRatio)%Q, inject_Z maxSize)
    else (inject_Z w, inject_Z h) in
  (Js.round w', Js.round h').

(** [resizeImageFile]: [None] when the promise rejects (the file does not
    decode, or [toBlob] has nothing to encode). *)
Definition resizeImageFile (drawImage : Resampler) (file : File) (maxSize : Z)
    : option File :=
  match file_content file with
  | ImageContent w h px =>
      if (0 <? w) && (0 <? h)
      then
        let '(w', h') := resizedDimensions w h maxSize in
        if (w' <=? 0) || (h' <=? 0) then None
        else Some (mkFile (file_name file)
                     (ImageContent w' h' (drawImage (mkCanvas w h px) w' h')))
      else None
  | NotAnImage => None
  end.

Definition handleConfirmResize (drawImage : Resampler) (s : AppState) : AppState :=
  match fileToProcess s with
  | None => s
  | Some file =>
      let s := s |> setIsSizeWarningModalOpen false in
      let s :=
        match resizeImageFile drawImage file MAX_IMAGE_DIMENSION with
        | Some resizedFile => proceedWithImageUpload resizedFile s
        | None => s |> setError (Some "Falha ao redimensionar a imagem.")
        end in
      s |> setFileToProcess None
  end.

Definition handleContinueAnyway (s : AppState) : AppState :=
  match fileToProcess s with
  | None => s
  | Some file =>
      s |> setIsSizeWarningModalOpen false
        |> proceedWithImageUpload file
        |> setFileToProcess None
  end.

(** ** The generative operations *)

(** What [geminiService] is asked over the network. *)
Inductive Request :=
| EditRequest (image editMask : File) (preserveMask : option File)
    (userPrompt : string) (size : OutputSize)
| FilterRequest (image : File) (filterPrompt : string) (size : OutputSize)
| AdjustRequest (image : File) (adjustmentPrompt : string) (size : OutputSize).

(** How the awaited call ends: the promise rejects with a message, or the
    returned data URL becomes a file. *)
Inductive ServiceReply :=
| Rejected (message : string)
| Resolved (file : File).

Record GenerateEnv := mkGenerateEnv
  { gen_imgRef : option ImageElement;
    gen_drawImage : Resampler;
    gen_reply : ServiceReply }.

Definition exportedFile (e : Exported) : option File :=
  match e with
  | ExportedFile f => Some f
  | _ => None
  end.

(** [handleGenerate]: the state after the handler has run, and the requests
    it has sent. *)
Definition handleGenerate (env : GenerateEnv) (s : AppState)
    : AppState * list Request :=
  match currentImage s with
  | None => (s |> setError (Some "Nenhuma imagem carregada para editar."), [])
  | Some image =>
  if negb (Js.truthy (Js.trim (prompt s)))
  then (s |> setError (Some "Por favor, insira uma descrição para sua edição."), [])
  else if negb (hasEditMask s)
  then (s |> setError (Some "Por favor, pinte sobre a área da imagem que você deseja editar."), [])
  else
  match outputSize s with
  | None => (s |> setError (Some "As dimensões da imagem de saída não foram definidas."), [])
  | Some size =>
      let s := s |> setIsLoading true |> setError None in
      let caught (message : string) :=
        s |> setError (Some ("Falha ao gerar a imagem. " ++ message)%string)
          |> setIsLoading false in
      match gen_imgRef env with
      | None => (caught "Image element not found", [])
      | Some img =>
          let editMaskFile :=
            scaleAndExportMask (gen_drawImage env) img (editMaskCanvas s) in
          match editMaskFile with
          | ExportThrows message => (caught message, [])
          | _ =>
              let preserveMaskFile :=
                if hasPreserveMask s
                then scaleAndExportMask (gen_drawImage env) img (preserveMaskCanvas s)
                else ExportedNull in
              match preserveMaskFile, editMaskFile with
              | ExportThrows message, _ => (caught message, [])
              | _, ExportedFile editMask =>
                  let request :=
                    EditRequest image editMask (exportedFile preserveMaskFile)
                      (prompt s) size in
                  match gen_reply env with
                  | Rejected message => (caught message, [request])
                  | Resolved newImageFile =>
                      (s |> addImageToHistory newImageFile
                         |> addPromptToHistory ledger_retouch (prompt s)
                         |> clearMasks
                         |> setIsLoading false, [request])
                  end
              | _, _ =>
                  (s |> setError (Some "A máscara de edição parece estar vazia.")
                     |> setIsLoading false, [])
              end
          end
      end
  end
  end.

Definition handleApplyFilter (reply : ServiceReply) (filterPrompt : string)
    (s : AppState) : AppState * list Request :=
  match currentImage s, outputSize s with
  | None, _ =>
      (s |> setError (Some "Nenhuma imagem carregada para aplicar um filtro."), [])
  | Some _, None =>
      (s |> setError (Some "As dimensões da imagem de saída não foram definidas."), [])
  | Some image, Some size =>
      let s := s |> setIsLoading true |> setError None in
      let request := FilterRequest image filterPrompt size in
      match reply with
      | Resolved newImageFile =>
          (s |> addImageToHistory newImageFile
             |> addPromptToHistory ledger_filters filterPrompt
             |> setIsLoading false, [request])
      | Rejected message =>
          (s |> setError (Some ("Falha ao aplicar o filtro. " ++ message)%string)
             |> setIsLoading false, [request])
      end
  end.

Definition handleApplyAdjustment (reply : ServiceReply) (adjustmentPrompt : string)
    (s : AppState) : AppState * list Request :=
  match currentImage s, outputSize s with
  | None, _ =>
      (s |> setError (Some "Nenhuma imagem carregada para aplicar um ajuste."), [])
  | Some _, None =>
      (s |> setError (Some "As dimensões da imagem de saída não foram definidas."), [])
  | Some image, Some size =>
      let s := s |> setIsLoading true |> setError None in
      let request := AdjustRequest image adjustmentPrompt size in
      match reply with
      | Resolved newImageFile =>
          (s |> addImageToHistory newImageFile
             |> addPromptToHistory ledger_adjust adjustmentPrompt
             |> setIsLoading false, [request])
      | Rejected message =>
          (s |> setError (Some ("Falha ao aplicar o ajuste. " ++ message)%string)
             |> setIsLoading false, [request])
      end
  end.

(** ** Crop *)

Record CropEnv := mkCropEnv
  { crop_imgRef : option ImageElement;
    crop_hasContext : bool;
    devicePixelRatio : Q;
    (** the bitmap left by [drawImage(image, sx, sy, sw, sh, ...)] *)
    crop_drawImage : Q -> Q -> Q -> Q -> list RGBA;
    (** [Date.now()], printed *)
    crop_now : string }.

(** Assigning a number to [canvas.width]: the integer part, never negative. *)
Definition toCanvasDimension (q : Q) : Z := Z.max 0 (Qfloor q).

Definition handleApplyCrop (env : CropEnv) (s : AppState) : AppState :=
  match completedCrop s, crop_imgRef env with
  | Some completed, Some image =>
      let scaleX := (inject_Z (naturalWidth image) / img_width image)%Q in
      let scaleY := (inject_Z (naturalHeight image) / img_height image)%Q in
      if negb (crop_hasContext env)
      then s |> setError (Some "Não foi possível processar o corte.")
      else
        let pixelRatio :=
          if Qeq_bool (devicePixelRatio env) 0 then 1%Q else devicePixelRatio env in
        let canvas :=
          mkCanvas (toCanvasDimension (crop_width completed * pixelRatio)%Q)
            (toCanvasDimension (crop_height completed * pixelRatio)%Q)
            (crop_drawImage env
               (crop_x completed * scaleX)%Q (crop_y completed * scaleY)%Q
               (crop_width completed * scaleX)%Q (crop_height completed * scaleY)%Q) in
        let newImageFile :=
          canvasToFile ("cortada-" ++ crop_now env ++ ".png")%string canvas in
        s |> addImageToHistory newImageFile
  | _, _ => s |> setError (Some "Por favor, selecione uma área para cortar.")
  end.

(** The [isCropping] prop that [App] hands to [CropPanel]:
    [!!completedCrop?.width && completedCrop.width > 0]. *)
Definition isCropping (s : AppState) : bool :=
  match completedCrop s with
  | None => false
  | Some completed =>
      negb (Qeq_bool (crop_width completed) 0)
      && negb (Qle_bool (crop_width completed) 0)
  end.

(** A click on the apply button of [CropPanel], which is
    [disabled={isLoading || !isCropping}]. *)
Definition clickApplyCrop (env : CropEnv) (s : AppState) : AppState :=
  if isLoading s || negb (isCropping s) then s else handleApplyCrop env s.

(** ** Navigation *)

Definition handleUndo (s : AppState) : AppState :=
  if canUndo s
  then s |> setHistoryIndex (historyIndex s - 1) |> clearMasks
  else s.

Definition handleRedo (s : AppState) : AppState :=
  if canRedo s
  then s |> setHistoryIndex (historyIndex s + 1) |> clearMasks
  else s.

Definition handleReset (s : AppState) : AppState :=
  if (0 <? length (history s))%nat
  then s |> setHistoryIndex 0 |> setError None |> clearMasks
  else s.

Definition handleUploadNew (s : AppState) : AppState :=
  s |> setHistory []
    |> setHistoryIndex (-1)
    |> setError None
    |> setPrompt ""
    |> setOutputSize None
    |> setPromptHistory []
    |> setCustomAdjustmentPrompt ""
    |> setCustomFilterPrompt ""
    |> clearMasks.

(** ** Painting the masks *)

(** A canvas of the given backing size right after its size was assigned:
    every pixel is transparent black. *)
Definition blankCanvas (w h : Z) : Canvas :=
  mkCanvas w h (repeat transparentBlack (Z.to_nat (w * h))).

(** The retouch tab renders the two [<canvas>] elements and React stores
    them in the refs; a new canvas is 300 by 150. Leaving the tab drops
    them again. *)
Definition mountCanvases (s : AppState) : AppState :=
  s |> setEditMaskCanvas (Some (blankCanvas 300 150))
    |> setPreserveMaskCanvas (Some (blankCanvas 300 150)).

Definition unmountCanvases (s : AppState) : AppState :=
  s |> setEditMaskCanvas None |> setPreserveMaskCanvas None.

(** [syncCanvasDimensions]: both canvases take the displayed size of the
    image, [w] by [h]; assigning the size of a canvas resets its bitmap. *)
Definition syncCanvasDimensions (w h : Z) (s : AppState) : AppState :=
  s |> setEditMaskCanvas (option_map (fun _ => blankCanvas w h) (editMaskCanvas s))
    |> setPreserveMaskCanvas
         (option_map (fun _ => blankCanvas w h) (preserveMaskCanvas s)).

Definition handlePointerDown (s : AppState) : AppState :=
  match activeTab s, maskTool s with
  | retouch, brush | retouch, eraser => s |> setIsDrawing true
  | _, _ => s
  end.

(** [handlePointerMove]: [stroke] is the segment the 2D context draws with
    the composite operation it is given ('source-over' for the brush,
    'destination-out' for the eraser). *)
Definition handlePointerMove (sourceOver destinationOut : Canvas -> Canvas)
    (s : AppState) : AppState :=
  match isDrawing s, activeTab s with
  | true, retouch =>
      match maskTool s with
      | brush => s |> setEditMaskCanvas (option_map sourceOver (editMaskCanvas s))
      | _ =>
          s |> setEditMaskCanvas (option_map destinationOut (editMaskCanvas s))
            |> setPreserveMaskCanvas (option_map destinationOut (preserveMaskCanvas s))
      end
  | _, _ => s
  end.

Definition handlePointerUp (s : AppState) : AppState :=
  if isDrawing s
  then
    s |> setIsDrawing false
      |> setHasEditMask (checkCanvasContent (editMaskCanvas s))
      |> setHasPreserveMask (checkCanvasContent (preserveMaskCanvas s))
  else s.

(** ** The output size controls of [CropPanel] *)

Definition handleWidthChange (value : string) (s : AppState) : AppState :=
  match outputSize s with
  | Some size =>
      let newWidth := Js.parseIntOrZero value in
      s |> setOutputSize (Some (mkSize newWidth (height size)))
  | None => s
  end.

Definition handleHeightChange (value : string) (s : AppState) : AppState :=
  match outputSize s with
  | Some size =>
      let newHeight := Js.parseIntOrZero value in
      s |> setOutputSize (Some (mkSize (width size) newHeight))
  | None => s
  end.

(** [handleSelectHistoryItem]: re-use of a ledger entry. *)
Definition handleSelectHistoryItem (item : HistoryItem) (s : AppState) : AppState :=
  let s := s |> setActiveTab (tabOfKind (item_type item)) in
  match item_type item with
  | ledger_retouch => s |> setPrompt (item_prompt item)
  | ledger_adjust => s |> setCustomAdjustmentPrompt (item_prompt item)
  | ledger_filters => s |> setCustomFilterPrompt (item_prompt item)
  end.

(** ** The controller as a transition system *)

Inductive Event :=
| Commit (file : File)
| Undo
| Redo
| Reset
| UploadNew
| ImageUpload (file : File)
| ConfirmResize (drawImage : Resampler)
| ContinueAnyway
| Generate (env : GenerateEnv)
| ApplyFilter (reply : ServiceReply) (filterPrompt : string)
| ApplyAdjustment (reply : ServiceReply) (adjustmentPrompt : string)
| ApplyCrop (env : CropEnv)
| CropComplete (completed : PixelCrop)
| PointerDown
| PointerMove (sourceOver destinationOut : Canvas -> Canvas)
| PointerUp
| ClearMask
| SelectTab (tab : Tab)
| SelectTool (tool : MaskTool)
| TypePrompt (text : string)
| WidthChange (value : string)
| HeightChange (value : string)
| SelectHistoryItem (item : HistoryItem)
| CloseError
| MountCanvases
| UnmountCanvases
| SyncCanvasDimensions (w h : Z).

Definition step (s : AppState) (e : Event) : AppState :=
  match e with
  | Commit file => addImageToHistory file s
  | Undo => handleUndo s
  | Redo => handleRedo s
  | Reset => handleReset s
  | UploadNew => handleUploadNew s
  | ImageUpload file => handleImageUpload file s
  | ConfirmResize drawImage => handleConfirmResize drawImage s
  | ContinueAnyway => handleContinueAnyway s
  | Generate env => fst (handleGenerate env s)
  | ApplyFilter reply filterPrompt => fst (handleApplyFilter reply filterPrompt s)
  | ApplyAdjustment reply adjustmentPrompt =>
      fst (handleApplyAdjustment reply adjustmentPrompt s)
  | ApplyCrop env => clickApplyCrop env s
  | CropComplete completed => setCompletedCrop (Some completed) s
  | PointerDown => handlePointerDown s
  | PointerMove sourceOver destinationOut =>
      handlePointerMove sourceOver destinationOut s
  | PointerUp => handlePointerUp s
  | ClearMask => clearMasks s
  | SelectTab tab => setActiveTab tab s
  | SelectTool tool => setMaskTool tool s
  | TypePrompt text => setPrompt text s
  | WidthChange value => handleWidthChange value s
  | HeightChange value => handleHeightChange value s
  | SelectHistoryItem item => handleSelectHistoryItem item s
  | CloseError => setError None s
  | MountCanvases => mountCanvases s
  | UnmountCanvases => unmountCanvases s
  | SyncCanvasDimensions w h => syncCanvasDimensions w h s
  end.

Definition run (events : list Event) (s : AppState) : AppState :=
  fold_left step events s.

(** The states the controller can be in. *)
Inductive reachable : AppState -> Prop :=
| reachable_initial : reachable initialState
| reachable_step s e : reachable s -> reachable (step s e).

(** ** Predicates of the specification *)

(** [-1 <= currentIndex <= length - 1]. *)
Definition historyInvariant (s : AppState) : Prop :=
  -1 <= historyIndex s <= Z.of_nat (length (history s)) - 1.

Definition layerCleared (canvas : option Canvas) : Prop :=
  match canvas with
  | None => True
  | Some c => Forall (fun p => p = transparentBlack) (cv_pixels c)
  end.

(** Both layers fully transparent and both content flags down. *)
Definition masksCleared (s : AppState) : Prop :=
  layerCleared (editMaskCanvas s) /\ layerCleared (preserveMaskCanvas s)
  /\ hasEditMask s = false /\ hasPreserveMask s = false.


(** Every alpha sample of a bitmap is zero. *)
Definition allTransparent (px : list RGBA) : Prop :=
  Forall (fun p => alpha p = 0%N) px.

(** ** How handlers change the history and the ledger *)

(** What a handler does to the history: it leaves it alone, moves the
    index within it, commits a version, or replaces it by a fresh one (of
    one version on upload, of none on "upload new"). *)
Inductive historyChange (s s' : AppState) : Prop :=
| history_kept :
    history s' = history s -> historyIndex s' = historyIndex s ->
    historyChange s s'
| history_moved :
    history s' = history s ->
    0 <= historyIndex s' <= Z.of_nat (length (history s)) - 1 ->
    historyChange s s'
| history_committed file :
    history s' = history (addImageToHistory file s) ->
    historyIndex s' = historyIndex (addImageToHistory file s) ->
    historyChange s s'
| history_started file :
    history s' = [file] -> historyIndex s' = 0 -> historyChange s s'
| history_emptied :
    history s' = [] -> historyIndex s' = -1 -> historyChange s s'.

Create HintDb pixshop.
#[local] Hint Constructors historyChange : pixshop.

(** Reading a field through a pile of setters: the setters and the
    projections are unfolded by value, so that each layer is looked at
    once. *)
Ltac project :=
  cbv [fst snd
       history historyIndex prompt isLoading error activeTab cropSelection
       completedCrop outputSize fileToProcess isSizeWarningModalOpen
       editMaskCanvas preserveMaskCanvas isDrawing maskTool hasEditMask
       hasPreserveMask promptHistory customAdjustmentPrompt customFilterPrompt
       setHistory setHistoryIndex setPrompt setIsLoading setError setActiveTab
       setCrop setCompletedCrop setOutputSize setFileToProcess
       setIsSizeWarningModalOpen setEditMaskCanvas setPreserveMaskCanvas
       setIsDrawing setMaskTool setHasEditMask setHasPreserveMask
       setPromptHistory setCustomAdjustmentPrompt setCustomFilterPrompt
       clearMasks addImageToHistory addPromptToHistory].

(** Case analysis on the scrutinee of the next [match] or [if] of the goal. *)
Ltac break_match :=
  match goal with
  | |- context [match ?x with _ => _ end] => destruct x eqn:?
  end.

(** What an event does to the ledger: nothing, empty it, or append the
    entry of a generative operation that went through. *)
Inductive ledgerChange (s : AppState) : Event -> AppState -> Prop :=
| ledger_kept e s' : promptHistory s' = promptHistory s -> ledgerChange s e s'
| ledger_emptied e s' : promptHistory s' = [] -> ledgerChange s e s'
| ledger_retouched env s' :
    promptHistory s' = promptHistory s ++ [mkItem ledger_retouch (prompt s)] ->
    ledgerChange s (Generate env) s'
| ledger_filtered reply text s' :
    promptHistory s' = promptHistory s ++ [mkItem ledger_filters text] ->
    ledgerChange s (ApplyFilter reply text) s'
| ledger_adjusted reply text s' :
    promptHistory s' = promptHistory s ++ [mkItem ledger_adjust text] ->
    ledgerChange s (ApplyAdjustment reply text) s'.

(** ** Sample data for the examples *)

Module Sample.

Definition opaque : RGBA := mkRGBA 75 128 255 179.

Definition versionA : File := mkFile "A.png" (ImageContent 2 1 [opaque; opaque]).
Definition versionB : File := mkFile "B.png" (ImageContent 2 1 [opaque; transparentBlack]).
Definition versionC : File := mkFile "C.png" (ImageContent 2 1 [transparentBlack; opaque]).
Definition versionD : File := mkFile "D.png" (ImageContent 1 1 [opaque]).

(** A session holding [versions] with the pointer at [index], an output
    size of 2 by 1 and nothing else going on. *)
Definition session (versions : list File) (index : Z) : AppState :=
  initialState |> setHistory versions |> setHistoryIndex index
               |> setOutputSize (Some (mkSize 2 1)).

Definition paintedCanvas : Canvas := mkCanvas 2 1 [opaque; transparentBlack].

(** A brush stroke over the left pixel, and an eraser stroke over it. *)
Definition strokeLeft (c : Canvas) : Canvas :=
  mkCanvas (cv_width c) (cv_height c)
    (match cv_pixels c with
     | _ :: rest => opaque :: rest
     | [] => []
     end).

Definition eraseLeft (c : Canvas) : Canvas :=
  mkCanvas (cv_width c) (cv_height c)
    (match cv_pixels c with
     | _ :: rest => transparentBlack :: rest
     | [] => []
     end).

(** Upload [versionA], paint one stroke on the edit layer. *)
Definition paintOneStroke : list Event :=
  [ImageUpload versionA; MountCanvases; SyncCanvasDimensions 2 1;
   PointerDown; PointerMove strokeLeft eraseLeft; PointerUp].

(** A selection 50 wide and 0 high, as a horizontal drag leaves it. *)
Definition flatSelection : PixelCrop := mkCrop 10 10 50 0.

(** A selection 0 wide and 40 high. *)
Definition thinSelection : PixelCrop := mkCrop 10 10 0 40.

(** A resampler that repeats the source pixels over the target. *)
Definition nearest : Resampler :=
  fun source w h =>
    match cv_pixels source with
    | [] => repeat transparentBlack (Z.to_nat (w * h))
    | p :: _ => repeat p (Z.to_nat (w * h))
    end.

Definition element : ImageElement := mkImg 4 2 2 1.

Definition generateEnv : GenerateEnv :=
  mkGenerateEnv (Some element) nearest (Resolved versionD).

(** With the stroke still on the edit layer: a filter, an adjustment and
    a crop that go through, and a generative edit that goes through. *)
Definition afterFilter : AppState :=
  run (paintOneStroke
       ++ [SelectTab filters; UnmountCanvases;
           ApplyFilter (Resolved versionD) "sepia"]) initialState.

Definition afterAdjustment : AppState :=
  run (paintOneStroke
       ++ [SelectTab adjust; UnmountCanvases;
           ApplyAdjustment (Resolved versionD) "warmer light"]) initialState.

Definition afterGenerate : AppState :=
  run (paintOneStroke ++ [TypePrompt "add a hat"; Generate generateEnv])
    initialState.

Definition cropEnv : CropEnv :=
  mkCropEnv (Some (mkImg 2 1 200 100)) true 1 (fun _ _ _ _ => [])
    "1700000000000".

Definition afterCrop : AppState :=
  run (paintOneStroke
       ++ [SelectTab crop; UnmountCanvases; CropComplete (mkCrop 0 0 1 1);
           ApplyCrop cropEnv]) initialState.

(** On the crop tab, with a selection drawn. *)
Definition selecting (selection : PixelCrop) : AppState :=
  run [ImageUpload versionA; SelectTab crop; CropComplete selection]
    initialState.

End Sample.

(** ** Download *)

Inductive Format := png | jpeg.

Definition notSlashOrDot (c : ascii) : bool :=
  negb (Ascii.eqb c "/") && negb (Ascii.eqb c ".").

Fixpoint allChars (test : ascii -> bool) (s : string) : bool :=
  match s with
  | EmptyString => true
  | String c rest => test c && allChars test rest
  end.

(** [name.replace(/\.[^/.]+$/, "")]: the leftmost dot that is followed, up
    to the end of the name, by one or more characters other than a slash and
    a dot; the name is cut there. *)
Fixpoint stripExtension (name : string) : string :=
  match name with
  | EmptyString => EmptyString
  | String c rest =>
      if Ascii.eqb c "." && Js.truthy rest && allChars notSlashOrDot rest
      then EmptyString
      else String c (stripExtension rest)
  end.

Definition fileExtension (format : Format) : string :=
  match format with
  | jpeg => "jpg"
  | png => "png"
  end.

(** The [downloadFileName] of [handleConfirmDownload]. *)
Definition downloadFileName (name : string) (format : Format) : string :=
  let baseName := stripExtension name in
  ("editada-" ++ (if Js.truthy baseName then baseName else "imagem")
   ++ "." ++ fileExtension format)%string.

(** [handleConfirmDownload] up to the point where the browser takes over:
    the name to save under, or the error shown when there is no image. *)
Definition handleConfirmDownload (format : Format) (s : AppState)
    : AppState * option string :=
  match currentImage s with
  | None => (s |> setError (Some "Não há imagem para baixar."), None)
  | Some image => (s |> setError None, Some (downloadFileName (file_name image) format))
  end.

(** ** The generation service: reading replies *)

(** A function that returns or throws. *)
Inductive Outcome (A : Type) :=
| Returns (value : A)
| Throws (message : string).

Arguments Returns {A} value.
Arguments Throws {A} message.

Record InlineData := mkInline { mimeType : string; data : string }.

Record Part := mkPart
  { part_text : option string; part_inlineData : option InlineData }.

(** A candidate of the reply: [content.parts] and [finishReason]. *)
Record Candidate := mkCandidate
  { content_parts : option (list Part); finishReason : option string }.

Record PromptFeedback := mkFeedback
  { blockReason : string; blockReasonMessage : option string }.

Record GenerateContentResponse := mkResponse
  { candidates : option (list Candidate);
    promptFeedback : option PromptFeedback;
    response_text : option string }.

(** [x || ''] on an optional string. *)
Definition orEmpty (x : option string) : string :=
  match x with
  | Some text => text
  | None => ""
  end.

(** The double quote, for the messages that quote a text. *)
Definition doubleQuote : string := String (ascii_of_nat 34) EmptyString.

(** [response.candidates?.[0]]. *)
Definition firstCandidate (response : GenerateContentResponse) : option Candidate :=
  match candidates response with
  | Some (candidate :: _) => Some candidate
  | _ => None
  end.

(** [response.candidates?.[0]?.content?.parts]. *)
Definition firstParts (response : GenerateContentResponse) : option (list Part) :=
  match firstCandidate response with
  | Some candidate => content_parts candidate
  | None => None
  end.

Definition hasInlineData (part : Part) : bool :=
  match part_inlineData part with
  | Some _ => true
  | None => false
  end.

(** [parts?.find(part => part.inlineData)?.inlineData]. *)
Definition findInlineData (parts : option (list Part)) : option InlineData :=
  match parts with
  | Some parts =>
      match find hasInlineData parts with
      | Some part => part_inlineData part
      | None => None
      end
  | None => None
  end.

(** [response.promptFeedback?.blockReason], when truthy. *)
Definition blockedBy (response : GenerateContentResponse) : option PromptFeedback :=
  match promptFeedback response with
  | Some feedback => if Js.truthy (blockReason feedback) then Some feedback else None
  | None => None
  end.

Definition noImageMessage (response : GenerateContentResponse) (context : string)
    : string :=
  let textFeedback := Js.trim (orEmpty (response_text response)) in
  ("O modelo de IA não retornou uma imagem para " ++ context ++ ". "
   ++ (if Js.truthy textFeedback
       then "O modelo respondeu com o texto: " ++ doubleQuote ++ textFeedback
            ++ doubleQuote
       else "Isso pode acontecer devido a filtros de segurança ou se a solicitação for muito complexa. Tente reformular seu prompt para ser mais direto."))%string.

Definition handleApiResponse (response : GenerateContentResponse)
    (context : string) : Outcome string :=
  match blockedBy response with
  | Some feedback =>
      Throws ("A solicitação foi bloqueada. Motivo: " ++ blockReason feedback
              ++ ". " ++ orEmpty (blockReasonMessage feedback))%string
  | None =>
      match findInlineData (firstParts response) with
      | Some inline =>
          Returns ("data:" ++ mimeType inline ++ ";base64," ++ data inline)%string
      | None =>
          let reason :=
            match firstCandidate response with
            | Some candidate => orEmpty (finishReason candidate)
            | None => ""
            end in
          if Js.truthy reason && negb (String.eqb reason "STOP")
          then Throws ("A geração de imagem para " ++ context
                       ++ " parou inesperadamente. Motivo: " ++ reason
                       ++ ". Isso geralmente está relacionado às configurações de segurança.")%string
          else Throws (noImageMessage response context)
      end
  end.

(** What [fetch('/api/gemini')] and [response.json()] give the client. *)
Inductive ProxyReply :=
| FetchFails (message : string)
| HttpReply (ok : bool) (error : option string) (body : GenerateContentResponse).

(** The [text] accessor that [callModelViaProxy] adds when some part of the
    first candidate has text. *)
Definition withText (body : GenerateContentResponse) : GenerateContentResponse :=
  match firstParts body with
  | Some parts =>
      if existsb (fun part => Js.truthy (orEmpty (part_text part))) parts
      then mkResponse (candidates body) (promptFeedback body)
             (Some (String.concat "" (map (fun part => orEmpty (part_text part)) parts)))
      else body
  | None => body
  end.

Definition callModelViaProxy (reply : ProxyReply) : Outcome GenerateContentResponse :=
  let rethrown (message : string) :=
    Throws ("Falha na comunicação com o servidor de IA. " ++ message)%string in
  match reply with
  | FetchFails message => rethrown message
  | HttpReply ok error body =>
      if negb ok
      then rethrown (if Js.truthy (orEmpty error) then orEmpty error
                     else "A resposta da rede não foi bem-sucedida.")
      else Returns (withText body)
  end.

(** The request and the reading of the reply that [generateFilteredImage],
    [generateAdjustedImage], [generateEditedImage] and [generateObjectMask]
    share: the data URL of the generated image, before any resize. *)
Definition generatedDataUrl (reply : ProxyReply) (context : string) : Outcome string :=
  match callModelViaProxy reply with
  | Returns response => handleApiResponse response context
  | Throws message => Throws message
  end.

(** [dataUrl.split(',')]: the first piece, and what follows the first
    comma, if there is one. *)
Fixpoint beforeComma (s : string) : string :=
  match s with
  | EmptyString => EmptyString
  | String c rest => if Ascii.eqb c "," then EmptyString else String c (beforeComma rest)
  end.

Fixpoint afterComma (s : string) : option string :=
  match s with
  | EmptyString => None
  | String c rest => if Ascii.eqb c "," then Some rest else afterComma rest
  end.

Definition isLineTerminator (c : ascii) : bool :=
  Ascii.eqb c (ascii_of_nat 10) || Ascii.eqb c (ascii_of_nat 13).

(** The lazy [(.*?);] of the MIME pattern: the text up to the nearest
    semicolon, which no line terminator may precede. *)
Fixpoint upToSemicolon (s : string) : option string :=
  match s with
  | EmptyString => None
  | String c rest =>
      if Ascii.eqb c ";" then Some EmptyString
      else if isLineTerminator c then None
      else option_map (String c) (upToSemicolon rest)
  end.

(** [s.match(/:(.*?);/)]: the capture of the leftmost match. *)
Fixpoint matchMime (s : string) : option string :=
  match s with
  | EmptyString => None
  | String c rest =>
      if Ascii.eqb c ":"
      then match upToSemicolon rest with
           | Some capture => Some capture
           | None => matchMime rest
           end
      else matchMime rest
  end.

(** [fileToPart], from the data URL that [FileReader] produced. *)
Definition fileToPart (dataUrl : string) : Outcome InlineData :=
  match afterComma dataUrl with
  | None => Throws "Invalid data URL"
  | Some rest =>
      match matchMime (beforeComma dataUrl) with
      | Some mime =>
          if Js.truthy mime then Returns (mkInline mime (beforeComma rest))
          else Throws "Could not parse MIME type from data URL"
      | None => Throws "Could not parse MIME type from data URL"
      end
  end.

Definition notComma (c : ascii) : bool := negb (Ascii.eqb c ",").

(** A character that may stand in a MIME type for the pattern of
    [fileToPart] to read it back. *)
Definition mimeChar (c : ascii) : bool :=
  notComma c && negb (Ascii.eqb c ";") && negb (isLineTerminator c).

(** ** The proxy in front of the upstream API *)

(** JSON values. An object is the sequence of its entries, a later entry
    for a key overriding an earlier one, as in [JSON.parse] and in an object
    literal with a spread. Numbers are only ever tested for zero. *)
#[warnings="-register-all"]
Inductive Json :=
| JNull
| JBool (b : bool)
| JNumber (n : Z)
| JString (text : string)
| JArray (items : list Json)
| JObject (entries : list (string * Json)).

(** Truthiness of a value that may be [undefined]. *)
Definition jsonTruthy (v : option Json) : bool :=
  match v with
  | None => false
  | Some JNull => false
  | Some (JBool b) => b
  | Some (JNumber n) => negb (n =? 0)
  | Some (JString text) => Js.truthy text
  | Some (JArray _) => true
  | Some (JObject _) => true
  end.

Fixpoint lookup (key : string) (entries : list (string * Json)) : option Json :=
  match entries with
  | [] => None
  | (k, v) :: rest =>
      match lookup key rest with
      | Some later => Some later
      | None => if String.eqb k key then Some v else None
      end
  end.

(** [value.key] on a value that is neither [null] nor [undefined]. *)
Definition getProperty (key : string) (value : Json) : option Json :=
  match value with
  | JObject entries => lookup key entries
  | _ => None
  end.

Definition indexKey (i : nat) : string := NilZero.string_of_uint (Nat.to_uint i).

Fixpoint indexed (items : list Json) (i : nat) : list (string * Json) :=
  match items with
  | [] => []
  | item :: rest => (indexKey i, item) :: indexed rest (S i)
  end.

(** The own enumerable properties a rest pattern or a spread copies. *)
Definition ownProperties (value : Json) : list (string * Json) :=
  match value with
  | JObject entries => entries
  | JArray items => indexed items 0
  | JString text =>
      indexed (map (fun c => JString (String c EmptyString)) (list_ascii_of_string text)) 0
  | _ => []
  end.

(** The own properties of [config || {}]. *)
Definition configOrEmpty (config : option Json) : list (string * Json) :=
  match config with
  | Some value => if jsonTruthy config then ownProperties value else []
  | None => []
  end.

(** [const { responseModalities, ...restOfConfig } = config || {}]. *)
Definition restOfConfig (config : option Json) : list (string * Json) :=
  filter (fun entry => negb (String.eqb (fst entry) "responseModalities"))
    (configOrEmpty config).

Record ProxyRequest := mkProxyRequest
  { method : string;
    (** [request.body], [None] when there is none *)
    body : option Json }.

(** The [fetch] to the upstream API: the model and the key that make its
    URL, and the JSON body. *)
Record UpstreamRequest := mkUpstream
  { upstream_model : Json; upstream_key : string;
    upstream_body : list (string * Json) }.

Inductive UpstreamReply :=
| Unreachable
(** a reply with its status; [None] when its body is not JSON *)
| Replied (status : Z) (responseData : option Json).

Record ProxyEnv := mkProxyEnv
  { API_KEY : option string;
    upstream : UpstreamRequest -> UpstreamReply }.

Record ProxyResponse := mkProxyResponse { status : Z; payload : Json }.

Definition errorPayload (message : string) : Json :=
  JObject [("error", JString message)].

(** [geminiResponse.ok]. *)
Definition statusOk (code : Z) : bool := (200 <=? code) && (code <=? 299).

Definition isNull (value : Json) : bool :=
  match value with
  | JNull => true
  | _ => false
  end.

(** [model] and [contents] of the body, unless [!model || !contents]. *)
Definition requiredFields (requestBody : Json) : option (Json * Json) :=
  match getProperty "model" requestBody, getProperty "contents" requestBody with
  | Some model, Some contents =>
      if negb (jsonTruthy (Some model)) || negb (jsonTruthy (Some contents))
      then None
      else Some (model, contents)
  | _, _ => None
  end.

(** [responseData.error?.message || 'Ocorreu um erro com a API Gemini.'],
    for a [responseData] that is not [null]. *)
Definition errorDetail (responseData : Json) : Json :=
  let message :=
    match getProperty "error" responseData with
    | Some problem => if isNull problem then None else getProperty "message" problem
    | None => None
    end in
  match message with
  | Some detail =>
      if jsonTruthy message then detail
      else JString "Ocorreu um erro com a API Gemini."
  | None => JString "Ocorreu um erro com a API Gemini."
  end.

(** What is thrown inside the [try] ends here. *)
Definition caught : ProxyResponse :=
  mkProxyResponse 500 (errorPayload "Ocorreu um erro interno no servidor.").

(** The part of the handler after its checks: the call and the answer made
    of the reply. *)
Definition forward (env : ProxyEnv) (call : UpstreamRequest)
    : ProxyResponse * list UpstreamRequest :=
  match upstream env call with
  | Unreachable => (caught, [call])
  | Replied code None => (caught, [call])
  | Replied code (Some responseData) =>
      if statusOk code
      then (mkProxyResponse 200 responseData, [call])
      else if isNull responseData
      then (caught, [call])
      else (mkProxyResponse code
              (JObject [("error", errorDetail responseData);
                        ("details", responseData)]), [call])
  end.

Definition handler (env : ProxyEnv) (request : ProxyRequest)
    : ProxyResponse * list UpstreamRequest :=
  if negb (String.eqb (method request) "POST")
  then (mkProxyResponse 405 (errorPayload "Method Not Allowed"), [])
  else
    if negb (Js.truthy (orEmpty (API_KEY env)))
    then (mkProxyResponse 500
            (errorPayload "A chave de API não está configurada no servidor."), [])
    else
      match body request with
      | None => (caught, [])
      | Some requestBody =>
          if isNull requestBody then (caught, [])
          else
            match requiredFields requestBody with
            | None =>
                (mkProxyResponse 400
                   (errorPayload "Campos obrigatórios ausentes: modelo e conteúdo."), [])
            | Some (model, contents) =>
                forward env
                  (mkUpstream model (orEmpty (API_KEY env))
                     (("contents", contents)
                      :: restOfConfig (getProperty "config" requestBody)))
            end
      end.

(** ** The magic selection *)




Record ClickEnv := mkClickEnv
  { click_client : Q * Q;
    click_corner : Q * Q;
    click_imgRef : option ImageElement;
    (** how [generateObjectMask] ends *)
    click_reply : Outcome string;
    (** whether the returned data URL loads as an image *)
    click_maskLoads : bool;
    (** the bitmap of the preserve canvas once it was cleared, the mask was
        drawn over its whole size and the marker colour was filled
        'source-in' *)
    click_composite : Canvas -> list RGBA }.


(** ** The adjustment panel *)









(** ** Further sample data *)

Module Fixture.

(** A photograph of 3000 by 2000, larger than [MAX_IMAGE_DIMENSION]. *)
Definition largePhoto : File := mkFile "large.jpg" (ImageContent 3000 2000 []).

(** The size warning is showing for [largePhoto]. *)
Definition awaitingChoice : AppState := handleImageUpload largePhoto initialState.

(** One stroke painted and an instruction typed, ready to submit. *)
Definition readyToGenerate : AppState :=
  run (Sample.paintOneStroke ++ [TypePrompt "add a hat"]) initialState.

(** The request that submitting [readyToGenerate] sends. *)
Definition hatRequest : Request :=
  EditRequest Sample.versionA
    (mkFile "mask.png" (ImageContent 4 2 (repeat Sample.opaque 8)))
    None "add a hat" (mkSize 2 1).

(** A session on [versionA] and [versionB], standing on the second. *)
Definition twoVersions : AppState :=
  Sample.session [Sample.versionA; Sample.versionB] 1.

(** The proxy with a key, in front of an upstream that answers 200. *)
Definition proxyEnv : ProxyEnv :=
  mkProxyEnv (Some "secret")
    (fun _ => Replied 200 (Some (JObject [("candidates", JArray [])]))).

Definition editBody : Json :=
  JObject
    [("model", JString "gemini-2.5-flash-image-preview");
     ("contents", JObject [("parts", JArray [])]);
     ("config",
      JObject [("responseModalities", JArray [JString "IMAGE"; JString "TEXT"])])].

Definition editCall : UpstreamRequest :=
  mkUpstream (JString "gemini-2.5-flash-image-preview") "secret"
    [("contents", JObject [("parts", JArray [])])].

(** An image of 4 by 2 shown at 2 by 1, and a click in its middle. *)
Definition shownHalfSize : ImageElement := mkImg 4 2 2 1.

(** The magic selection tool picked on a session with its canvases. *)
Definition magicReady : AppState :=
  run [ImageUpload Sample.versionA; MountCanvases; SyncCanvasDimensions 2 1;
       SelectTool magic_preserve] initialState.

Definition clickEnv : ClickEnv :=
  mkClickEnv (11%Q, 5%Q) (10%Q, 5%Q) (Some shownHalfSize) (Returns "data:image/png;base64,AA==")
    true (fun canvas => map (fun _ => Sample.opaque) (cv_pixels canvas)).

(** A resampler whose bitmap is left out. *)
Definition noPixels : Resampler := fun _ _ _ => [].


Definition selection : PixelCrop := mkCrop 10 10 (61 # 2) 20.

End Fixture.

(** * Properties *)

(** ** Arrays *)

Lemma slice_from_start (A : Type) (arr : list A) (i : Z) :
  -1 <= i -> Js.slice arr 0 (i + 1) = firstn (Z.to_nat (i + 1)) arr.
Proof.
  intros Hi. unfold Js.slice, Js.clampIndex.
  assert (Hlen : 0 <= Z.of_nat (length arr)) by lia.
  replace (0 <? 0) with false by reflexivity.
  destruct (i + 1 <? 0) eqn:Hneg; [apply Z.ltb_lt in Hneg; lia|].
  rewrite (Z.min_l 0) by lia. simpl skipn. rewrite Z.sub_0_r.
  destruct (Z.le_gt_cases (i + 1) (Z.of_nat (length arr))) as [Hle | Hgt].
  - rewrite Z.min_l, Z.max_l by lia. reflexivity.
  - rewrite Z.min_r, Z.max_l by lia. rewrite Nat2Z.id.
    rewrite firstn_all. symmetry. apply firstn_all2. lia.
Qed.

(** ** Frame lemmas of the handlers *)

Lemma clearMasks_history s :
  history (clearMasks s) = history s /\ historyIndex (clearMasks s) = historyIndex s.
Proof. split; reflexivity. Qed.

Lemma addImageToHistory_history file s :
  history (addImageToHistory file s)
  = Js.slice (history s) 0 (historyIndex s + 1) ++ [file].
Proof. reflexivity. Qed.

Lemma addImageToHistory_index file s :
  historyIndex (addImageToHistory file s)
  = Z.of_nat (length (history (addImageToHistory file s))) - 1.
Proof. reflexivity. Qed.

Lemma addImageToHistory_invariant file s :
  0 <= historyIndex (addImageToHistory file s)
    <= Z.of_nat (length (history (addImageToHistory file s))) - 1.
Proof.
  rewrite addImageToHistory_index, addImageToHistory_history.
  rewrite length_app. simpl. lia.
Qed.

Lemma proceedWithImageUpload_change file s :
  historyChange s (proceedWithImageUpload file s).
Proof.
  unfold proceedWithImageUpload.
  destruct (getImageDimensions file) as [[w h]|].
  - apply history_started with file; reflexivity.
  - apply history_kept; reflexivity.
Qed.

Lemma proceedWithImageUpload_change_from file s0 s :
  history s = history s0 -> historyIndex s = historyIndex s0 ->
  historyChange s0 (proceedWithImageUpload file s).
Proof.
  intros Hh Hi. destruct (proceedWithImageUpload_change file s) as [H1 H2|H1 H2|f H1 H2|f H1 H2|H1 H2].
  - apply history_kept; congruence.
  - apply history_moved; [congruence | rewrite <- Hh; exact H2].
  - unfold proceedWithImageUpload in *. destruct (getImageDimensions file) as [[w h]|].
    + apply history_started with file; reflexivity.
    + apply history_kept; simpl; assumption.
  - eauto with pixshop.
  - eauto with pixshop.
Qed.

Lemma handleUndo_change s :
  historyInvariant s -> historyChange s (handleUndo s).
Proof.
  unfold historyInvariant, handleUndo, canUndo. intros Hinv.
  destruct (0 <? historyIndex s) eqn:Hu.
  - apply Z.ltb_lt in Hu. apply history_moved; simpl; [reflexivity | lia].
  - apply history_kept; reflexivity.
Qed.

Lemma handleRedo_change s :
  historyInvariant s -> historyChange s (handleRedo s).
Proof.
  unfold historyInvariant, handleRedo, canRedo. intros Hinv.
  destruct (historyIndex s <? Z.of_nat (length (history s)) - 1) eqn:Hr.
  - apply Z.ltb_lt in Hr. apply history_moved; simpl; [reflexivity | lia].
  - apply history_kept; reflexivity.
Qed.

Lemma handleUndo_effect s :
  history (handleUndo s) = history s
  /\ historyIndex (handleUndo s)
     = if canUndo s then historyIndex s - 1 else historyIndex s.
Proof. unfold handleUndo. destruct (canUndo s); split; reflexivity. Qed.

Lemma handleRedo_effect s :
  history (handleRedo s) = history s
  /\ historyIndex (handleRedo s)
     = if canRedo s then historyIndex s + 1 else historyIndex s.
Proof. unfold handleRedo. destruct (canRedo s); split; reflexivity. Qed.

Lemma handleReset_change s : historyChange s (handleReset s).
Proof.
  unfold handleReset.
  destruct (0 <? length (history s))%nat eqn:Hn.
  - apply Nat.ltb_lt in Hn. apply history_moved; simpl; [reflexivity | lia].
  - apply history_kept; reflexivity.
Qed.

Lemma handleGenerate_change env s :
  historyChange s (fst (handleGenerate env s)).
Proof.
  unfold handleGenerate.
  repeat break_match;
    lazymatch goal with
    | |- context [addImageToHistory] =>
        eapply history_committed; project; reflexivity
    | _ => apply history_kept; reflexivity
    end.
Qed.

Lemma handleApplyFilter_change reply text s :
  historyChange s (fst (handleApplyFilter reply text s)).
Proof.
  unfold handleApplyFilter.
  destruct (currentImage s), (outputSize s); try (apply history_kept; reflexivity).
  destruct reply as [m|newFile]; [apply history_kept; reflexivity|].
  apply history_committed with newFile; reflexivity.
Qed.

Lemma handleApplyAdjustment_change reply text s :
  historyChange s (fst (handleApplyAdjustment reply text s)).
Proof.
  unfold handleApplyAdjustment.
  destruct (currentImage s), (outputSize s); try (apply history_kept; reflexivity).
  destruct reply as [m|newFile]; [apply history_kept; reflexivity|].
  apply history_committed with newFile; reflexivity.
Qed.

Lemma handleApplyCrop_change env s : historyChange s (handleApplyCrop env s).
Proof.
  unfold handleApplyCrop.
  destruct (completedCrop s), (crop_imgRef env); try (apply history_kept; reflexivity).
  destruct (negb (crop_hasContext env)); [apply history_kept; reflexivity|].
  eapply history_committed; reflexivity.
Qed.

Lemma step_change s e : historyInvariant s -> historyChange s (step s e).
Proof.
  intros Hinv. destruct e; simpl.
  - eapply history_committed; reflexivity.
  - now apply handleUndo_change.
  - now apply handleRedo_change.
  - apply handleReset_change.
  - apply history_emptied; reflexivity.
  - unfold handleImageUpload. destruct (getImageDimensions file) as [[w h]|] eqn:Hd.
    + destruct (_ || _); [apply history_kept; reflexivity|].
      apply proceedWithImageUpload_change_from; reflexivity.
    + apply history_kept; reflexivity.
  - unfold handleConfirmResize. destruct (fileToProcess s); [|apply history_kept; reflexivity].
    destruct (resizeImageFile _ _ _).
    + match goal with |- historyChange _ (setFileToProcess _ ?x) =>
        assert (H : historyChange s x)
          by (apply proceedWithImageUpload_change_from; reflexivity) end.
      destruct H; eauto with pixshop.
    + apply history_kept; reflexivity.
  - unfold handleContinueAnyway. destruct (fileToProcess s); [|apply history_kept; reflexivity].
    match goal with |- historyChange _ (setFileToProcess _ ?x) =>
      assert (H : historyChange s x)
        by (apply proceedWithImageUpload_change_from; reflexivity) end.
    destruct H; eauto with pixshop.
  - apply handleGenerate_change.
  - apply handleApplyFilter_change.
  - apply handleApplyAdjustment_change.
  - unfold clickApplyCrop. destruct (_ || _); [apply history_kept; reflexivity|].
    apply handleApplyCrop_change.
  - apply history_kept; reflexivity.
  - unfold handlePointerDown. destruct (activeTab s), (maskTool s); apply history_kept; reflexivity.
  - unfold handlePointerMove. destruct (isDrawing s), (activeTab s), (maskTool s);
      apply history_kept; reflexivity.
  - unfold handlePointerUp. destruct (isDrawing s); apply history_kept; reflexivity.
  - apply history_kept; reflexivity.
  - apply history_kept; reflexivity.
  - apply history_kept; reflexivity.
  - apply history_kept; reflexivity.
  - unfold handleWidthChange. destruct (outputSize s); apply history_kept; reflexivity.
  - unfold handleHeightChange. destruct (outputSize s); apply history_kept; reflexivity.
  - unfold handleSelectHistoryItem. destruct (item_type item); apply history_kept; reflexivity.
  - apply history_kept; reflexivity.
  - apply history_kept; reflexivity.
  - apply history_kept; reflexivity.
  - apply history_kept; reflexivity.
Qed.

Lemma historyChange_invariant s s' :
  historyInvariant s -> historyChange s s' -> historyInvariant s'.
Proof.
  unfold historyInvariant. intros Hinv [Hh Hi|Hh Hi|file Hh Hi|file Hh Hi|Hh Hi].
  - rewrite Hh, Hi. exact Hinv.
  - rewrite Hh. lia.
  - rewrite Hh, Hi. pose proof (addImageToHistory_invariant file s). lia.
  - rewrite Hh, Hi. simpl. lia.
  - rewrite Hh, Hi. simpl. lia.
Qed.

Lemma initialState_invariant : historyInvariant initialState.
Proof. unfold historyInvariant. simpl. lia. Qed.

Lemma reachable_invariant s : reachable s -> historyInvariant s.
Proof.
  induction 1 as [|s e Hs IH].
  - apply initialState_invariant.
  - apply historyChange_invariant with s; [exact IH | now apply step_change].
Qed.

Lemma run_app events events' s :
  run (events ++ events') s = run events' (run events s).
Proof. unfold run. apply fold_left_app. Qed.

Lemma run_reachable events s : reachable s -> reachable (run events s).
Proof.
  revert s. induction events as [|e events IH]; intros s Hs; simpl.
  - exact Hs.
  - apply IH. now constructor.
Qed.

(** ** The history of versions *)

(** C1. A commit keeps the versions up to the current index, discards
    every version strictly after it, appends the new version and points the
    current index at it (the new length minus one); from [A, B, C] with the
    index at 1, committing [D] gives [A, B, D] with the index at 2. *)
Theorem commit_discards_forward_versions (D : File) (s : AppState) :
  -1 <= historyIndex s ->
  history (addImageToHistory D s)
    = firstn (Z.to_nat (historyIndex s + 1)) (history s) ++ [D]
  /\ historyIndex (addImageToHistory D s)
     = Z.of_nat (length (history (addImageToHistory D s))) - 1
  /\ (forall A B C : File,
        history s = [A; B; C] -> historyIndex s = 1 ->
        history (addImageToHistory D s) = [A; B; D]
        /\ historyIndex (addImageToHistory D s) = 2).
Proof.
  intros Hi.
  assert (Hh : history (addImageToHistory D s)
               = firstn (Z.to_nat (historyIndex s + 1)) (history s) ++ [D]).
  { rewrite addImageToHistory_history. now rewrite slice_from_start. }
  split; [exact Hh|]. split; [apply addImageToHistory_index|].
  intros A B C HABC Hone.
  rewrite addImageToHistory_index, Hh, HABC, Hone. split; reflexivity.
Qed.

Lemma commit_discards_forward_versions_witness :
  -1 <= historyIndex (Sample.session [Sample.versionA; Sample.versionB; Sample.versionC] 1)
  /\ history (addImageToHistory Sample.versionD
                (Sample.session [Sample.versionA; Sample.versionB; Sample.versionC] 1))
     = [Sample.versionA; Sample.versionB; Sample.versionD]
  /\ historyIndex (addImageToHistory Sample.versionD
                     (Sample.session [Sample.versionA; Sample.versionB; Sample.versionC] 1))
     = 2.
Proof.
  split; [simpl; lia|].
  destruct (commit_discards_forward_versions Sample.versionD
              (Sample.session [Sample.versionA; Sample.versionB; Sample.versionC] 1))
    as (_ & _ & H); [simpl; lia|].
  apply (H Sample.versionA Sample.versionB Sample.versionC); reflexivity.
Defined.

(** C2. In every state the controller reaches from the empty one, by any
    sequence of events (commit, undo, redo, reset and "upload new" among
    them), [-1 <= currentIndex <= length - 1]; [canUndo] holds exactly when
    [currentIndex > 0] and [canRedo] exactly when
    [currentIndex < length - 1]. After a commit the index is never negative,
    so along any sequence of commits from the empty history
    [0 <= currentIndex <= length - 1] holds after each of them. *)
Theorem history_invariant_holds (events : list Event) :
  let s := run events initialState in
  historyInvariant s
  /\ (canUndo s = true <-> 0 < historyIndex s)
  /\ (canRedo s = true <-> historyIndex s < Z.of_nat (length (history s)) - 1)
  /\ (forall files : list File, forall n : nat,
        (0 < n <= length files)%nat ->
        let s' := run (map Commit (firstn n files)) initialState in
        0 <= historyIndex s' <= Z.of_nat (length (history s')) - 1).
Proof.
  intros s. split; [|split; [|split]].
  - apply reachable_invariant. apply run_reachable. constructor.
  - unfold canUndo. apply Z.ltb_lt.
  - unfold canRedo. apply Z.ltb_lt.
  - intros files n Hn s'. subst s'.
    destruct (firstn n files) as [|file prefix] eqn:Hfirst using rev_ind.
    + apply (f_equal (@length File)) in Hfirst.
      rewrite length_firstn in Hfirst. simpl in Hfirst. lia.
    + rewrite map_app, run_app. simpl. apply addImageToHistory_invariant.
Qed.

(** C3. In a history state where [canUndo] holds, undo followed by redo
    brings the current index back to what it was; neither touches the array
    of versions, so the current version is the very same one. *)
Theorem undo_then_redo_restores (s : AppState) :
  historyInvariant s -> canUndo s = true ->
  historyIndex (handleUndo s) = historyIndex s - 1
  /\ history (handleUndo s) = history s
  /\ historyIndex (handleRedo (handleUndo s)) = historyIndex s
  /\ history (handleRedo (handleUndo s)) = history s
  /\ currentImage (handleRedo (handleUndo s)) = currentImage s.
Proof.
  unfold historyInvariant. intros Hinv Hu.
  assert (Hundo : handleUndo s = s |> setHistoryIndex (historyIndex s - 1) |> clearMasks).
  { unfold handleUndo. now rewrite Hu. }
  assert (Hredo : canRedo (handleUndo s) = true).
  { rewrite Hundo. unfold canRedo. simpl. apply Z.ltb_lt. lia. }
  assert (Hidx : historyIndex (handleRedo (handleUndo s)) = historyIndex s).
  { unfold handleRedo. rewrite Hredo, Hundo. simpl. lia. }
  assert (Hh : history (handleRedo (handleUndo s)) = history s).
  { unfold handleRedo. rewrite Hredo, Hundo. reflexivity. }
  repeat split.
  - rewrite Hundo. reflexivity.
  - rewrite Hundo. reflexivity.
  - exact Hidx.
  - exact Hh.
  - unfold currentImage. now rewrite Hidx, Hh.
Qed.

Lemma undo_then_redo_restores_witness :
  historyInvariant (Sample.session [Sample.versionA; Sample.versionB; Sample.versionC] 2)
  /\ canUndo (Sample.session [Sample.versionA; Sample.versionB; Sample.versionC] 2) = true
  /\ currentImage
       (handleRedo (handleUndo
          (Sample.session [Sample.versionA; Sample.versionB; Sample.versionC] 2)))
     = Some Sample.versionC.
Proof.
  assert (Hinv : historyInvariant
                   (Sample.session [Sample.versionA; Sample.versionB; Sample.versionC] 2))
    by (unfold historyInvariant; simpl; lia).
  split; [exact Hinv|]. split; [reflexivity|].
  destruct (undo_then_redo_restores _ Hinv eq_refl) as (_ & _ & _ & _ & H).
  rewrite H. reflexivity.
Defined.

(** C4. On a non-empty history, reset puts the current index at 0 and
    leaves the array of versions as it is, so the later versions stay within
    reach of redo: [k] redos after the reset stand on version [k] (or on the
    last one when [k] runs past it). From [A, B, C] with the index at 2,
    reset gives index 0 over [A, B, C], a redo reaches [B] and a second one
    [C]. *)
Theorem reset_keeps_forward_versions (s : AppState) :
  history s <> [] ->
  historyIndex (handleReset s) = 0
  /\ history (handleReset s) = history s
  /\ (forall k : nat,
        history (Nat.iter k handleRedo (handleReset s)) = history s
        /\ historyIndex (Nat.iter k handleRedo (handleReset s))
           = Z.min (Z.of_nat k) (Z.of_nat (length (history s)) - 1))
  /\ (forall A B C : File,
        history s = [A; B; C] -> historyIndex s = 2 ->
        history (handleRedo (handleRedo (handleReset s))) = [A; B; C]
        /\ currentImage (handleRedo (handleReset s)) = Some B
        /\ currentImage (handleRedo (handleRedo (handleReset s))) = Some C).
Proof.
  intros Hne.
  assert (Hlen : (0 < length (history s))%nat).
  { destruct (history s); [congruence | simpl; lia]. }
  assert (Hreset : handleReset s
                   = s |> setHistoryIndex 0 |> setError None |> clearMasks).
  { unfold handleReset. apply Nat.ltb_lt in Hlen. now rewrite Hlen. }
  assert (Hiter : forall k : nat,
        history (Nat.iter k handleRedo (handleReset s)) = history s
        /\ historyIndex (Nat.iter k handleRedo (handleReset s))
           = Z.min (Z.of_nat k) (Z.of_nat (length (history s)) - 1)).
  { induction k as [|k [IHh IHi]].
    - simpl. rewrite Hreset. split; [reflexivity | simpl; lia].
    - rewrite Nat.iter_succ.
      destruct (handleRedo_effect (Nat.iter k handleRedo (handleReset s)))
        as [Hh Hi].
      rewrite Hh, Hi, IHh. split; [reflexivity|].
      unfold canRedo. rewrite IHh, IHi.
      destruct (_ <? _) eqn:Hlt.
      + apply Z.ltb_lt in Hlt. lia.
      + apply Z.ltb_ge in Hlt. lia. }
  split; [rewrite Hreset; reflexivity|].
  split; [rewrite Hreset; reflexivity|].
  split; [exact Hiter|].
  intros A B C HABC _.
  destruct (Hiter 1%nat) as [H1h H1i]. destruct (Hiter 2%nat) as [H2h H2i].
  simpl Nat.iter in *. unfold currentImage.
  rewrite H1h, H1i, H2h, H2i, HABC. repeat split.
Qed.

Lemma reset_keeps_forward_versions_witness :
  history (Sample.session [Sample.versionA; Sample.versionB; Sample.versionC] 2) <> []
  /\ historyIndex
       (handleReset (Sample.session [Sample.versionA; Sample.versionB; Sample.versionC] 2))
     = 0
  /\ currentImage
       (handleRedo (handleReset
          (Sample.session [Sample.versionA; Sample.versionB; Sample.versionC] 2)))
     = Some Sample.versionB.
Proof.
  assert (Hne : history (Sample.session
                           [Sample.versionA; Sample.versionB; Sample.versionC] 2) <> [])
    by (simpl; discriminate).
  split; [exact Hne|].
  destruct (reset_keeps_forward_versions _ Hne) as (H0 & _ & _ & H).
  split; [exact H0|].
  apply (H Sample.versionA Sample.versionB Sample.versionC); reflexivity.
Defined.

(** ** The mask layers *)

Lemma alphaScan_step (data : list N) (i : nat) :
  alphaScan data i
  = if (i <? length data)%nat
    then if (0 <? nth i data 0)%N then true else alphaScan data (i + 4)
    else false.
Proof.
  rewrite alphaScan_equation_1.
  destruct (lt_dec i (length data)) as [Hlt | Hge]; simpl.
  - apply Nat.ltb_lt in Hlt. now rewrite Hlt.
  - apply Nat.nlt_ge, Nat.ltb_ge in Hge. now rewrite Hge.
Qed.

(** Four bytes further in the data is one pixel further in the bitmap. *)
Lemma alphaScan_shift (r g b a : N) (data : list N) (i : nat) :
  alphaScan (r :: g :: b :: a :: data) (i + 4) = alphaScan data i.
Proof.
  remember (length data - i)%nat as fuel eqn:Hfuel.
  revert i Hfuel.
  induction fuel as [fuel IH] using lt_wf_ind. intros i Hfuel.
  rewrite (alphaScan_step (r :: g :: b :: a :: data)), (alphaScan_step data i).
  replace (i + 4)%nat with (S (S (S (S i)))) by lia.
  cbn [length nth].
  replace (S (S (S (S i))) <? S (S (S (S (length data)))))%nat
    with (i <? length data)%nat
    by (destruct (i <? length data)%nat eqn:H; symmetry;
        [apply Nat.ltb_lt in H; apply Nat.ltb_lt; lia
        |apply Nat.ltb_ge in H; apply Nat.ltb_ge; lia]).
  destruct (i <? length data)%nat eqn:Hlt; [|reflexivity].
  destruct (0 <? nth i data 0)%N; [reflexivity|].
  apply Nat.ltb_lt in Hlt.
  replace (S (S (S (S i)))) with (i + 4)%nat by lia.
  apply (IH (length data - (i + 4))%nat); lia.
Qed.

Lemma alphaScan_pixels (px : list RGBA) :
  alphaScan (imageDataOf px) 3 = existsb (fun p => (0 <? alpha p)%N) px.
Proof.
  induction px as [|p px IH].
  - reflexivity.
  - cbn [imageDataOf flat_map app existsb].
    rewrite alphaScan_step. cbn [length nth Nat.ltb Nat.leb].
    destruct (0 <? alpha p)%N; [reflexivity|]. simpl orb.
    rewrite (alphaScan_shift (red p) (green p) (blue p) (alpha p)
               (flat_map (fun q => [red q; green q; blue q; alpha q]) px) 3).
    exact IH.
Qed.

Lemma alphaScan_false_iff (px : list RGBA) :
  alphaScan (imageDataOf px) 3 = false <-> allTransparent px.
Proof.
  rewrite alphaScan_pixels. unfold allTransparent. split.
  - intros H. apply Forall_forall. intros p Hp.
    destruct (N.eq_dec (alpha p) 0) as [H0 | Hpos]; [exact H0|].
    assert (Hex : existsb (fun q => (0 <? alpha q)%N) px = true).
    { apply existsb_exists. exists p. split; [exact Hp|]. apply N.ltb_lt. lia. }
    congruence.
  - intros H. destruct (existsb _ px) eqn:Hex; [|reflexivity].
    apply existsb_exists in Hex. destruct Hex as (p & Hp & Hpos).
    rewrite Forall_forall in H. apply N.ltb_lt in Hpos. rewrite (H p Hp) in Hpos. lia.
Qed.

Lemma firstAlpha_transparent (px : list RGBA) :
  allTransparent px -> firstAlpha px = 0%N.
Proof.
  intros H. destruct px as [|p px]; [reflexivity|]. simpl.
  now inversion H.
Qed.

(** [checkCanvasContent] says whether some alpha sample of the layer is
    above zero. *)
Lemma checkCanvasContent_false_iff (c : Canvas) :
  checkCanvasContent (Some c) = false <-> allTransparent (cv_pixels c).
Proof. apply alphaScan_false_iff. Qed.

Lemma clearRect_transparent (c : Canvas) :
  Forall (fun p => p = transparentBlack) (cv_pixels (clearRect c)).
Proof.
  unfold clearRect. simpl. apply Forall_forall. intros p Hp.
  apply in_map_iff in Hp. destruct Hp as (q & Hq & _). now symmetry.
Qed.

Lemma clearMasks_cleared (s : AppState) : masksCleared (clearMasks s).
Proof.
  unfold masksCleared, clearMasks, layerCleared. simpl.
  repeat split.
  - destruct (editMaskCanvas s); simpl; [apply clearRect_transparent | exact I].
  - destruct (preserveMaskCanvas s); simpl; [apply clearRect_transparent | exact I].
Qed.

(** C7. Exporting a mask layer at the native size of a loaded image gives
    "no mask" ([null], and no file) exactly when every alpha sample of the
    rescaled bitmap is zero; otherwise it gives a file holding a raster of
    the native width and height, whatever the size of the canvas the mask
    was painted on. *)
Theorem export_null_iff_all_transparent
    (drawImage : Resampler) (img : ImageElement) (layer : Canvas) :
  0 < cv_width layer -> 0 < cv_height layer ->
  0 < naturalWidth img -> 0 < naturalHeight img ->
  let rescaled := drawImage layer (naturalWidth img) (naturalHeight img) in
  (scaleAndExportMask drawImage img (Some layer) = ExportedNull
   <-> allTransparent rescaled)
  /\ (~ allTransparent rescaled ->
      scaleAndExportMask drawImage img (Some layer)
      = ExportedFile
          (mkFile "mask.png"
             (ImageContent (naturalWidth img) (naturalHeight img) rescaled))).
Proof.
  intros Hw Hh Hnw Hnh rescaled.
  assert (Hexport :
    scaleAndExportMask drawImage img (Some layer)
    = if negb (alphaScan (imageDataOf rescaled) 3) then ExportedNull
      else ExportedFile
             (mkFile "mask.png"
                (ImageContent (naturalWidth img) (naturalHeight img) rescaled))).
  { unfold scaleAndExportMask, canvasToFile. cbn [cv_width cv_height cv_pixels].
    fold rescaled.
    replace (cv_width layer <=? 0) with false by (symmetry; apply Z.leb_gt; lia).
    replace (cv_height layer <=? 0) with false by (symmetry; apply Z.leb_gt; lia).
    replace (naturalWidth img <=? 0) with false by (symmetry; apply Z.leb_gt; lia).
    replace (naturalHeight img <=? 0) with false by (symmetry; apply Z.leb_gt; lia).
    cbn [orb].
    destruct (firstAlpha rescaled =? 0)%N eqn:Hfirst; [reflexivity|].
    destruct (alphaScan (imageDataOf rescaled) 3) eqn:Hscan; [reflexivity|].
    apply alphaScan_false_iff, firstAlpha_transparent in Hscan.
    apply N.eqb_neq in Hfirst. contradiction. }
  rewrite Hexport. split.
  - destruct (alphaScan (imageDataOf rescaled) 3) eqn:Hscan; simpl.
    + split; [discriminate|]. intros H. apply alphaScan_false_iff in H. congruence.
    + split; [|reflexivity]. intros _. now apply alphaScan_false_iff.
  - intros Hnot. destruct (alphaScan (imageDataOf rescaled) 3) eqn:Hscan; simpl.
    + reflexivity.
    + apply alphaScan_false_iff in Hscan. contradiction.
Qed.

Lemma export_null_iff_all_transparent_witness :
  (0 < cv_width Sample.paintedCanvas /\ 0 < cv_height Sample.paintedCanvas
   /\ 0 < naturalWidth Sample.element /\ 0 < naturalHeight Sample.element)
  /\ scaleAndExportMask Sample.nearest Sample.element (Some Sample.paintedCanvas)
     = ExportedFile
         (mkFile "mask.png" (ImageContent 4 2 (repeat Sample.opaque 8))).
Proof.
  split; [simpl; lia|].
  refine (proj2 (export_null_iff_all_transparent Sample.nearest Sample.element
                   Sample.paintedCanvas _ _ _ _) _);
    try (simpl; lia).
  intros H. inversion H as [|p px Hp _]. discriminate Hp.
Defined.

Lemma masksCleared_setIsLoading (v : bool) (s : AppState) :
  masksCleared s -> masksCleared (setIsLoading v s).
Proof. intros H. exact H. Qed.

(** Where the source calls [clearMasks]: after a generative edit went
    through, after an undo or a redo that moved, after a reset of a
    non-empty history, after an upload and after "upload new". *)
Lemma masks_cleared_where_source_clears (s : AppState) :
  (canUndo s = true -> masksCleared (handleUndo s))
  /\ (canRedo s = true -> masksCleared (handleRedo s))
  /\ (history s <> [] -> masksCleared (handleReset s))
  /\ masksCleared (handleUploadNew s)
  /\ (forall file size, getImageDimensions file = Some size ->
        masksCleared (proceedWithImageUpload file s))
  /\ (forall env request,
        snd (handleGenerate env s) = [request] ->
        error (fst (handleGenerate env s)) = None ->
        masksCleared (fst (handleGenerate env s))).
Proof.
  split; [|split; [|split; [|split; [|split]]]].
  - intros H. unfold handleUndo. rewrite H. apply clearMasks_cleared.
  - intros H. unfold handleRedo. rewrite H. apply clearMasks_cleared.
  - intros H. unfold handleReset.
    destruct (history s); [congruence|]. apply clearMasks_cleared.
  - apply clearMasks_cleared.
  - intros file [w h] H. unfold proceedWithImageUpload. rewrite H.
    apply clearMasks_cleared.
  - intros env request. unfold handleGenerate.
    repeat break_match; cbn [snd fst]; try discriminate.
    all: intros _ _.
    all: apply masksCleared_setIsLoading, clearMasks_cleared.
Qed.

(** C5. The masks are cleared after a generative edit goes through, but a
    filter, an adjustment or a crop that commits a new version leaves the
    layers and both content flags as they were: with one stroke painted,
    the edit flag is still up after each of the three. *)
Theorem masks_survive_filter_adjust_crop :
  hasEditMask (run Sample.paintOneStroke initialState) = true
  /\ (history Sample.afterFilter = [Sample.versionA; Sample.versionD]
      /\ hasEditMask Sample.afterFilter = true
      /\ ~ masksCleared Sample.afterFilter)
  /\ (history Sample.afterAdjustment = [Sample.versionA; Sample.versionD]
      /\ hasEditMask Sample.afterAdjustment = true
      /\ ~ masksCleared Sample.afterAdjustment)
  /\ (length (history Sample.afterCrop) = 2%nat
      /\ hasEditMask Sample.afterCrop = true
      /\ ~ masksCleared Sample.afterCrop)
  /\ (history Sample.afterGenerate = [Sample.versionA; Sample.versionD]
      /\ masksCleared Sample.afterGenerate).
Proof.
  assert (Hflag : forall s, hasEditMask s = true -> ~ masksCleared s).
  { intros s Hs (_ & _ & H & _). congruence. }
  split; [vm_compute; reflexivity|].
  split; [split; [|split]; [vm_compute; reflexivity .. | apply Hflag; vm_compute; reflexivity]|].
  split; [split; [|split]; [vm_compute; reflexivity .. | apply Hflag; vm_compute; reflexivity]|].
  split; [split; [|split]; [vm_compute; reflexivity .. | apply Hflag; vm_compute; reflexivity]|].
  split; [vm_compute; reflexivity|].
  unfold masksCleared.
  split; [vm_compute; repeat constructor|].
  split; [vm_compute; repeat constructor|].
  split; vm_compute; reflexivity.
Qed.

(** In any state, the filter, adjustment and crop handlers leave the
    layers and their flags untouched. *)
Lemma filter_adjust_crop_keep_masks (s : AppState) :
  (forall reply text,
      let s' := fst (handleApplyFilter reply text s) in
      editMaskCanvas s' = editMaskCanvas s
      /\ preserveMaskCanvas s' = preserveMaskCanvas s
      /\ hasEditMask s' = hasEditMask s
      /\ hasPreserveMask s' = hasPreserveMask s)
  /\ (forall reply text,
      let s' := fst (handleApplyAdjustment reply text s) in
      editMaskCanvas s' = editMaskCanvas s
      /\ preserveMaskCanvas s' = preserveMaskCanvas s
      /\ hasEditMask s' = hasEditMask s
      /\ hasPreserveMask s' = hasPreserveMask s)
  /\ (forall env,
      let s' := handleApplyCrop env s in
      editMaskCanvas s' = editMaskCanvas s
      /\ preserveMaskCanvas s' = preserveMaskCanvas s
      /\ hasEditMask s' = hasEditMask s
      /\ hasPreserveMask s' = hasPreserveMask s).
Proof.
  split; [|split].
  - intros reply text. unfold handleApplyFilter.
    repeat break_match; repeat split; reflexivity.
  - intros reply text. unfold handleApplyAdjustment.
    repeat break_match; repeat split; reflexivity.
  - intros env. unfold handleApplyCrop.
    repeat break_match; repeat split; reflexivity.
Qed.

(** ** Crop *)

(** A selection of width zero keeps the apply button disabled. *)
Lemma zero_width_crop_is_gated (env : CropEnv) (s : AppState) (completed : PixelCrop) :
  completedCrop s = Some completed -> (crop_width completed == 0)%Q ->
  clickApplyCrop env s = s.
Proof.
  intros Hc Hw. unfold clickApplyCrop, isCropping. rewrite Hc.
  apply Qeq_bool_iff in Hw. rewrite Hw. cbn [negb andb].
  now rewrite orb_true_r.
Qed.

(** C6. A selection of width zero cannot be applied: the button is
    disabled and nothing changes. A selection of height zero and positive
    width can: the handler checks neither dimension, the button only the
    width, and an empty file is committed as a new version. *)
Theorem zero_height_crop_is_committed :
  isCropping (Sample.selecting Sample.flatSelection) = true
  /\ history (step (Sample.selecting Sample.flatSelection) (ApplyCrop Sample.cropEnv))
     = [Sample.versionA; mkFile "cortada-1700000000000.png" NotAnImage]
  /\ historyIndex (step (Sample.selecting Sample.flatSelection) (ApplyCrop Sample.cropEnv))
     = 1
  /\ history (Sample.selecting Sample.flatSelection) = [Sample.versionA]
  /\ step (Sample.selecting Sample.thinSelection) (ApplyCrop Sample.cropEnv)
     = Sample.selecting Sample.thinSelection.
Proof.
  split; [vm_compute; reflexivity|].
  split; [vm_compute; reflexivity|].
  split; [vm_compute; reflexivity|].
  split; vm_compute; reflexivity.
Qed.

(** ** The output size *)





(** ** Validation before a generative edit *)



(** The later check of [handleGenerate], on the exported edit mask: when the
    flag is up but the layer exports to "no mask", the error is shown
    without any request, and the history, the ledger and the layers stay. *)
Lemma generate_blank_export_is_local (env : GenerateEnv) (s : AppState)
    (image : File) (size : OutputSize) (img : ImageElement) :
  currentImage s = Some image -> Js.truthy (Js.trim (prompt s)) = true ->
  hasEditMask s = true -> outputSize s = Some size ->
  gen_imgRef env = Some img ->
  scaleAndExportMask (gen_drawImage env) img (editMaskCanvas s) = ExportedNull ->
  snd (handleGenerate env s) = []
  /\ error (fst (handleGenerate env s)) <> None
  /\ history (fst (handleGenerate env s)) = history s
  /\ historyIndex (fst (handleGenerate env s)) = historyIndex s
  /\ promptHistory (fst (handleGenerate env s)) = promptHistory s
  /\ editMaskCanvas (fst (handleGenerate env s)) = editMaskCanvas s
  /\ preserveMaskCanvas (fst (handleGenerate env s)) = preserveMaskCanvas s.
Proof.
  intros Himage Hprompt Hmask Hsize Himg Hexport.
  unfold handleGenerate.
  rewrite Himage, Hprompt, Hmask, Hsize, Himg. cbn [negb].
  change (editMaskCanvas (s |> setIsLoading true |> setError None))
    with (editMaskCanvas s).
  rewrite Hexport.
  destruct (if hasPreserveMask _ then _ else _);
    cbn [fst snd]; repeat split; discriminate.
Qed.

(** ** The prompt ledger *)

Lemma ledger_append_inv (l : list HistoryItem) (item : HistoryItem) :
  l <> l ++ [item] /\ [] <> l ++ [item].
Proof.
  split; intros H; apply (f_equal (@length HistoryItem)) in H;
    rewrite length_app in H; simpl in H; lia.
Qed.

Lemma proceedWithImageUpload_ledger (file : File) (s : AppState) :
  promptHistory (proceedWithImageUpload file s) = promptHistory s
  \/ promptHistory (proceedWithImageUpload file s) = [].
Proof.
  unfold proceedWithImageUpload.
  destruct (getImageDimensions file) as [[w h]|]; [right | left]; reflexivity.
Qed.

Lemma handleApplyCrop_ledger (env : CropEnv) (s : AppState) :
  promptHistory (handleApplyCrop env s) = promptHistory s.
Proof. unfold handleApplyCrop. repeat break_match; reflexivity. Qed.

Lemma step_ledger (s : AppState) (e : Event) : ledgerChange s e (step s e).
Proof.
  destruct e; cbn [step];
    try (apply ledger_kept; reflexivity);
    try (apply ledger_emptied; reflexivity).
  - apply ledger_kept. unfold handleUndo. break_match; reflexivity.
  - apply ledger_kept. unfold handleRedo. break_match; reflexivity.
  - apply ledger_kept. unfold handleReset. break_match; reflexivity.
  - unfold handleImageUpload. destruct (getImageDimensions file) as [[w h]|].
    + destruct (_ || _); [apply ledger_kept; reflexivity|].
      destruct (proceedWithImageUpload_ledger file (setError None s)) as [H | H];
        [apply ledger_kept | apply ledger_emptied]; exact H.
    + apply ledger_kept; reflexivity.
  - unfold handleConfirmResize. destruct (fileToProcess s); [|apply ledger_kept; reflexivity].
    destruct (resizeImageFile _ _ _) as [resized|]; [|apply ledger_kept; reflexivity].
    destruct (proceedWithImageUpload_ledger resized (setIsSizeWarningModalOpen false s))
      as [H | H]; [apply ledger_kept | apply ledger_emptied]; exact H.
  - unfold handleContinueAnyway. destruct (fileToProcess s) as [file|];
      [|apply ledger_kept; reflexivity].
    destruct (proceedWithImageUpload_ledger file (setIsSizeWarningModalOpen false s))
      as [H | H]; [apply ledger_kept | apply ledger_emptied]; exact H.
  - unfold handleGenerate.
    repeat break_match;
      lazymatch goal with
      | |- context [addPromptToHistory] => apply ledger_retouched; project; reflexivity
      | _ => apply ledger_kept; reflexivity
      end.
  - unfold handleApplyFilter.
    repeat break_match;
      lazymatch goal with
      | |- context [addPromptToHistory] => apply ledger_filtered; project; reflexivity
      | _ => apply ledger_kept; reflexivity
      end.
  - unfold handleApplyAdjustment.
    repeat break_match;
      lazymatch goal with
      | |- context [addPromptToHistory] => apply ledger_adjusted; project; reflexivity
      | _ => apply ledger_kept; reflexivity
      end.
  - apply ledger_kept. unfold clickApplyCrop.
    break_match; [reflexivity | apply handleApplyCrop_ledger].
  - apply ledger_kept. unfold handlePointerDown. repeat break_match; reflexivity.
  - apply ledger_kept. unfold handlePointerMove. repeat break_match; reflexivity.
  - apply ledger_kept. unfold handlePointerUp. break_match; reflexivity.
  - apply ledger_kept. unfold handleWidthChange. break_match; reflexivity.
  - apply ledger_kept. unfold handleHeightChange. break_match; reflexivity.
  - apply ledger_kept. unfold handleSelectHistoryItem. break_match; reflexivity.
Qed.

(** C10. A crop appends a version to the history and leaves the prompt
    ledger as it was. An event that appends an entry to the ledger is a
    generative edit, a filter or an adjustment, and the entry is of that
    kind. *)
Theorem crop_leaves_ledger (env : CropEnv) (s : AppState) :
  promptHistory (handleApplyCrop env s) = promptHistory s
  /\ promptHistory (clickApplyCrop env s) = promptHistory s
  /\ (forall completed image,
        completedCrop s = Some completed -> crop_imgRef env = Some image ->
        crop_hasContext env = true ->
        exists newImageFile,
          history (handleApplyCrop env s)
          = Js.slice (history s) 0 (historyIndex s + 1) ++ [newImageFile])
  /\ (forall e item,
        promptHistory (step s e) = promptHistory s ++ [item] ->
        match e with
        | Generate _ => item = mkItem ledger_retouch (prompt s)
        | ApplyFilter _ text => item = mkItem ledger_filters text
        | ApplyAdjustment _ text => item = mkItem ledger_adjust text
        | _ => False
        end).
Proof.
  split; [apply handleApplyCrop_ledger|].
  split.
  { unfold clickApplyCrop. break_match; [reflexivity | apply handleApplyCrop_ledger]. }
  split.
  { intros completed image Hc Hi Hctx. unfold handleApplyCrop.
    rewrite Hc, Hi, Hctx. cbn [negb]. eexists. reflexivity. }
  intros e item Happend.
  destruct (ledger_append_inv (promptHistory s) item) as [Hkept Hemptied].
  destruct (step_ledger s e) as [e s' H | e s' H | env' s' H | reply text s' H | reply text s' H];
    rewrite H in Happend.
  - contradiction.
  - contradiction.
  - apply app_inv_head in Happend. now injection Happend as <-.
  - apply app_inv_head in Happend. now injection Happend as <-.
  - apply app_inv_head in Happend. now injection Happend as <-.
Qed.

(** * Further properties of the controller *)

(** ** Oversize uploads *)

Lemma round_fraction (n d : Z) :
  0 < d -> Js.round (inject_Z n / inject_Z d)%Q = (2 * n + d) / (2 * d).
Proof.
  intros Hd. unfold Js.round.
  assert (Heq : (inject_Z n / inject_Z d + (1 # 2) == (2 * n + d) # Z.to_pos (2 * d))%Q).
  { destruct d as [|p|p]; try lia.
    unfold Qeq, Qdiv, Qmult, Qplus, Qinv, inject_Z.
    cbn -[Z.mul Z.add Pos.mul Z.to_pos].
    rewrite Z2Pos.id by lia. rewrite !Pos2Z.inj_mul. lia. }
  rewrite (Qfloor_comp _ _ Heq). unfold Qfloor.
  rewrite Z2Pos.id by lia. reflexivity.
Qed.

Lemma round_comp (p q : Q) : (p == q)%Q -> Js.round p = Js.round q.
Proof.
  intros H. unfold Js.round. apply Qfloor_comp. now rewrite H.
Qed.

Lemma round_integer (n : Z) : Js.round (inject_Z n) = n.
Proof.
  rewrite (round_comp (inject_Z n) (inject_Z n / inject_Z 1)%Q).
  - rewrite round_fraction by lia.
    rewrite Z.mul_1_r. rewrite Z.add_comm, Z.mul_comm, Z.div_add by lia.
    now rewrite Z.div_small by lia.
  - unfold inject_Z. field.
Qed.

Lemma inject_Z_nonzero (n : Z) : 0 < n -> ~ (inject_Z n == 0)%Q.
Proof. unfold Qeq, inject_Z. simpl. lia. Qed.

(** The two sizes [resizeImageFile] can compute, as integer divisions. *)
Lemma resizedDimensions_value (w h maxSize : Z) :
  0 < w -> 0 < h ->
  resizedDimensions w h maxSize
  = if (maxSize <? w) || (maxSize <? h)
    then
      if h <? w
      then (maxSize, (2 * (maxSize * h) + w) / (2 * w))
      else ((2 * (maxSize * w) + h) / (2 * h), maxSize)
    else (w, h).
Proof.
  intros Hw Hh. unfold resizedDimensions.
  pose proof (inject_Z_nonzero w Hw) as Hw0.
  pose proof (inject_Z_nonzero h Hh) as Hh0.
  destruct ((maxSize <? w) || (maxSize <? h)).
  - destruct (h <? w).
    + rewrite round_integer. f_equal.
      rewrite (round_comp _ (inject_Z (maxSize * h) / inject_Z w)%Q).
      * now apply round_fraction.
      * rewrite inject_Z_mult. field. split; assumption.
    + rewrite round_integer. f_equal.
      rewrite (round_comp _ (inject_Z (maxSize * w) / inject_Z h)%Q).
      * now apply round_fraction.
      * rewrite inject_Z_mult. field. assumption.
  - now rewrite !round_integer.
Qed.

Lemma div_nearest (a b : Z) :
  0 < b -> 2 * a - b < 2 * b * ((2 * a + b) / (2 * b)) <= 2 * a + b.
Proof.
  intros Hb.
  pose proof (Z.mul_div_le (2 * a + b) (2 * b) ltac:(lia)).
  pose proof (Z.mul_succ_div_gt (2 * a + b) (2 * b) ltac:(lia)).
  lia.
Qed.

(** [resizeImageFile] leaves an image that fits alone; otherwise the longer
    edge becomes [maxSize] and the other one is the nearest integer to its
    share of it (halves going up), so it is at most [maxSize] too. *)
Theorem resizedDimensions_bounds (w h maxSize : Z) :
  0 < w -> 0 < h -> 0 < maxSize ->
  (w <= maxSize /\ h <= maxSize -> resizedDimensions w h maxSize = (w, h))
  /\ (maxSize < w \/ maxSize < h ->
      Z.max (fst (resizedDimensions w h maxSize))
            (snd (resizedDimensions w h maxSize)) = maxSize
      /\ 0 <= fst (resizedDimensions w h maxSize)
      /\ 0 <= snd (resizedDimensions w h maxSize)
      /\ (h < w ->
          fst (resizedDimensions w h maxSize) = maxSize
          /\ 2 * (maxSize * h) - w
             < 2 * w * snd (resizedDimensions w h maxSize)
             <= 2 * (maxSize * h) + w)
      /\ (w <= h ->
          snd (resizedDimensions w h maxSize) = maxSize
          /\ 2 * (maxSize * w) - h
             < 2 * h * fst (resizedDimensions w h maxSize)
             <= 2 * (maxSize * w) + h)).
Proof.
  intros Hw Hh Hmax. rewrite resizedDimensions_value by assumption.
  split.
  - intros [H1 H2].
    replace (maxSize <? w) with false by (symmetry; apply Z.ltb_ge; lia).
    replace (maxSize <? h) with false by (symmetry; apply Z.ltb_ge; lia).
    reflexivity.
  - intros Hover.
    replace ((maxSize <? w) || (maxSize <? h)) with true.
    2:{ symmetry. apply orb_true_iff.
        destruct Hover; [left | right]; apply Z.ltb_lt; assumption. }
    destruct (h <? w) eqn:Hhw; cbn [fst snd].
    + apply Z.ltb_lt in Hhw.
      pose proof (div_nearest (maxSize * h) w Hw) as Hnear.
      assert (0 <= (2 * (maxSize * h) + w) / (2 * w) <= maxSize) by nia.
      repeat split; try lia.
    + apply Z.ltb_ge in Hhw.
      pose proof (div_nearest (maxSize * w) h Hh) as Hnear.
      assert (0 <= (2 * (maxSize * w) + h) / (2 * h) <= maxSize) by nia.
      repeat split; try lia.
Qed.

Lemma resizedDimensions_bounds_witness :
  (0 < 3000 /\ 0 < 2000 /\ 0 < 2048)
  /\ Z.max (fst (resizedDimensions 3000 2000 2048))
           (snd (resizedDimensions 3000 2000 2048)) = 2048
  /\ resizedDimensions 3000 2000 2048 = (2048, 1365).
Proof.
  split; [lia|].
  destruct (resizedDimensions_bounds 3000 2000 2048) as [_ H]; try lia.
  destruct H as (Hmax & _); [left; lia|].
  split; [exact Hmax | vm_compute; reflexivity].
Defined.

Lemma getImageDimensions_inv (file : File) (w h : Z) :
  getImageDimensions file = Some (w, h) ->
  0 < w /\ 0 < h /\ exists px, file_content file = ImageContent w h px.
Proof.
  unfold getImageDimensions. destruct (file_content file) as [w0 h0 px|]; [|discriminate].
  destruct ((0 <? w0) && (0 <? h0)) eqn:Hpos; [|discriminate].
  intros H. injection H as -> ->. apply andb_prop in Hpos. destruct Hpos as [H1 H2].
  apply Z.ltb_lt in H1, H2. split; [exact H1|]. split; [exact H2|]. now exists px.
Qed.

Lemma getImageDimensions_image (name : string) (w h : Z) (px : list RGBA) :
  0 < w -> 0 < h ->
  getImageDimensions (mkFile name (ImageContent w h px)) = Some (w, h).
Proof.
  intros Hw Hh. unfold getImageDimensions. cbn [file_content].
  apply Z.ltb_lt in Hw, Hh. now rewrite Hw, Hh.
Qed.

(** [handleImageUpload]: an image with an edge above [MAX_IMAGE_DIMENSION]
    is held back behind the size warning and nothing else changes; an image
    that fits starts a fresh session on it. *)
Theorem handleImageUpload_gates_oversize (file : File) (w h : Z) (s : AppState) :
  getImageDimensions file = Some (w, h) ->
  (MAX_IMAGE_DIMENSION < w \/ MAX_IMAGE_DIMENSION < h ->
     history (handleImageUpload file s) = history s
     /\ historyIndex (handleImageUpload file s) = historyIndex s
     /\ outputSize (handleImageUpload file s) = outputSize s
     /\ promptHistory (handleImageUpload file s) = promptHistory s
     /\ fileToProcess (handleImageUpload file s) = Some file
     /\ isSizeWarningModalOpen (handleImageUpload file s) = true)
  /\ (w <= MAX_IMAGE_DIMENSION /\ h <= MAX_IMAGE_DIMENSION ->
     history (handleImageUpload file s) = [file]
     /\ historyIndex (handleImageUpload file s) = 0
     /\ currentImage (handleImageUpload file s) = Some file
     /\ outputSize (handleImageUpload file s) = Some (mkSize w h)
     /\ promptHistory (handleImageUpload file s) = []
     /\ activeTab (handleImageUpload file s) = retouch
     /\ error (handleImageUpload file s) = None
     /\ masksCleared (handleImageUpload file s)).
Proof.
  intros Hdim. unfold handleImageUpload. rewrite Hdim. split.
  - intros Hover.
    replace ((MAX_IMAGE_DIMENSION <? w) || (MAX_IMAGE_DIMENSION <? h)) with true.
    2:{ symmetry. apply orb_true_iff.
        destruct Hover; [left | right]; apply Z.ltb_lt; assumption. }
    repeat split.
  - intros [Hw Hh].
    replace (MAX_IMAGE_DIMENSION <? w) with false by (symmetry; apply Z.ltb_ge; lia).
    replace (MAX_IMAGE_DIMENSION <? h) with false by (symmetry; apply Z.ltb_ge; lia).
    cbn [orb]. unfold proceedWithImageUpload. rewrite Hdim.
    split; [reflexivity|]. split; [reflexivity|]. split; [reflexivity|].
    split; [reflexivity|]. split; [reflexivity|]. split; [reflexivity|].
    split; [reflexivity|]. apply clearMasks_cleared.
Qed.

Lemma handleImageUpload_gates_oversize_witness :
  getImageDimensions Fixture.largePhoto = Some (3000, 2000)
  /\ history (handleImageUpload Fixture.largePhoto initialState) = []
  /\ fileToProcess (handleImageUpload Fixture.largePhoto initialState)
     = Some Fixture.largePhoto.
Proof.
  split; [reflexivity|].
  destruct (handleImageUpload_gates_oversize Fixture.largePhoto 3000 2000
              initialState eq_refl) as [H _].
  destruct H as (Hh & _ & _ & _ & Hf & _); [left; unfold MAX_IMAGE_DIMENSION; lia|].
  split; [exact Hh | exact Hf].
Defined.

(** The two answers to the size warning. "Resize" either fails, leaving the
    history alone, or starts the session on a copy whose longer edge is
    exactly [MAX_IMAGE_DIMENSION], with the output size set to the size of
    that copy; "continue" starts it on the original at its own size. Both
    drop the pending file and close the warning. *)
Theorem size_warning_choices
    (drawImage : Resampler) (file : File) (w h : Z) (s : AppState) :
  fileToProcess s = Some file ->
  getImageDimensions file = Some (w, h) ->
  MAX_IMAGE_DIMENSION < w \/ MAX_IMAGE_DIMENSION < h ->
  (fileToProcess (handleConfirmResize drawImage s) = None
   /\ isSizeWarningModalOpen (handleConfirmResize drawImage s) = false
   /\ ((history (handleConfirmResize drawImage s) = history s
        /\ historyIndex (handleConfirmResize drawImage s) = historyIndex s
        /\ error (handleConfirmResize drawImage s)
           = Some "Falha ao redimensionar a imagem.")
       \/ exists resized w' h',
            history (handleConfirmResize drawImage s) = [resized]
            /\ historyIndex (handleConfirmResize drawImage s) = 0
            /\ file_name resized = file_name file
            /\ getImageDimensions resized = Some (w', h')
            /\ Z.max w' h' = MAX_IMAGE_DIMENSION
            /\ outputSize (handleConfirmResize drawImage s) = Some (mkSize w' h')))
  /\ (fileToProcess (handleContinueAnyway s) = None
      /\ isSizeWarningModalOpen (handleContinueAnyway s) = false
      /\ history (handleContinueAnyway s) = [file]
      /\ historyIndex (handleContinueAnyway s) = 0
      /\ outputSize (handleContinueAnyway s) = Some (mkSize w h)).
Proof.
  intros Hfile Hdim Hover.
  destruct (getImageDimensions_inv file w h Hdim) as (Hw & Hh & px & Hcontent).
  split.
  - unfold handleConfirmResize. rewrite Hfile.
    unfold resizeImageFile. rewrite Hcontent.
    replace ((0 <? w) && (0 <? h)) with true
      by (symmetry; apply andb_true_iff; split; apply Z.ltb_lt; assumption).
    destruct (resizedDimensions_bounds w h MAX_IMAGE_DIMENSION Hw Hh ltac:(reflexivity))
      as [_ Hbounds].
    destruct (Hbounds Hover) as (Hmax & Hw' & Hh' & _).
    destruct (resizedDimensions w h MAX_IMAGE_DIMENSION) as [w' h'].
    cbn [fst snd] in Hmax, Hw', Hh'.
    destruct ((w' <=? 0) || (h' <=? 0)) eqn:Hzero.
    + split; [reflexivity|]. split; [reflexivity|]. left. repeat split.
    + apply orb_false_iff in Hzero. destruct Hzero as [H1 H2].
      apply Z.leb_gt in H1, H2.
      unfold proceedWithImageUpload.
      rewrite (getImageDimensions_image (file_name file) w' h'
                 (drawImage (mkCanvas w h px) w' h') H1 H2).
      split; [reflexivity|]. split; [reflexivity|]. right.
      eexists _, w', h'.
      split; [reflexivity|]. split; [reflexivity|]. split; [reflexivity|].
      split; [now apply getImageDimensions_image|]. split; [exact Hmax | reflexivity].
  - unfold handleContinueAnyway. rewrite Hfile.
    unfold proceedWithImageUpload.
    rewrite Hdim. repeat split.
Qed.

Lemma size_warning_choices_witness :
  (fileToProcess Fixture.awaitingChoice = Some Fixture.largePhoto
   /\ getImageDimensions Fixture.largePhoto = Some (3000, 2000)
   /\ (MAX_IMAGE_DIMENSION < 3000 \/ MAX_IMAGE_DIMENSION < 2000))
  /\ outputSize (handleContinueAnyway Fixture.awaitingChoice)
     = Some (mkSize 3000 2000)
  /\ outputSize (handleConfirmResize Fixture.noPixels Fixture.awaitingChoice)
     = Some (mkSize 2048 1365).
Proof.
  assert (Hover : MAX_IMAGE_DIMENSION < 3000 \/ MAX_IMAGE_DIMENSION < 2000)
    by (left; unfold MAX_IMAGE_DIMENSION; lia).
  split; [split; [reflexivity | split; [reflexivity | exact Hover]]|].
  destruct (size_warning_choices Fixture.noPixels Fixture.largePhoto 3000 2000
              Fixture.awaitingChoice eq_refl eq_refl Hover)
    as [_ (_ & _ & _ & _ & Hcontinue)].
  split; [exact Hcontinue | vm_compute; reflexivity].
Defined.

(** ** Moving through the history *)

Lemma addImageToHistory_shape (file : File) (s : AppState) :
  historyInvariant s ->
  history (addImageToHistory file s)
    = firstn (Z.to_nat (historyIndex s + 1)) (history s) ++ [file]
  /\ historyIndex (addImageToHistory file s) = historyIndex s + 1.
Proof.
  unfold historyInvariant. intros Hinv.
  assert (Hh : history (addImageToHistory file s)
               = firstn (Z.to_nat (historyIndex s + 1)) (history s) ++ [file]).
  { rewrite addImageToHistory_history. rewrite slice_from_start by lia. reflexivity. }
  split; [exact Hh|].
  rewrite addImageToHistory_index, Hh, length_app, length_firstn. simpl. lia.
Qed.

Lemma index_app_last (A : Type) (l : list A) (x : A) :
  Js.index (l ++ [x]) (Z.of_nat (length l)) = Some x.
Proof.
  unfold Js.index.
  destruct (Z.of_nat (length l) <? 0) eqn:H; [apply Z.ltb_lt in H; lia|].
  rewrite Nat2Z.id, nth_error_app2 by lia. now rewrite Nat.sub_diag.
Qed.

Lemma index_app_firstn (A : Type) (l : list A) (x : A) (i : Z) :
  0 <= i ->
  Js.index (firstn (Z.to_nat (i + 1)) l ++ [x]) i = Js.index l i
  \/ Z.of_nat (length l) <= i.
Proof.
  intros Hi. destruct (Z.le_gt_cases (Z.of_nat (length l)) i) as [Hout | Hin];
    [right; exact Hout | left].
  unfold Js.index. destruct (i <? 0) eqn:H; [apply Z.ltb_lt in H; lia|].
  rewrite nth_error_app1 by (rewrite length_firstn; lia).
  rewrite nth_error_firstn.
  replace (Z.to_nat i <? Z.to_nat (i + 1))%nat with true; [reflexivity|].
  symmetry. apply Nat.ltb_lt. lia.
Qed.

(** A commit makes the new version current and leaves nothing to redo; an
    undo right after it shows the version that was current before, and a
    redo brings the new one back. *)
Theorem commit_then_undo_returns (file : File) (s : AppState) :
  historyInvariant s -> 0 <= historyIndex s ->
  currentImage (addImageToHistory file s) = Some file
  /\ canRedo (addImageToHistory file s) = false
  /\ canUndo (addImageToHistory file s) = true
  /\ currentImage (handleUndo (addImageToHistory file s)) = currentImage s
  /\ currentImage (handleRedo (handleUndo (addImageToHistory file s))) = Some file.
Proof.
  intros Hinv Hidx. pose proof Hinv as Hbounds. unfold historyInvariant in Hbounds.
  destruct (addImageToHistory_shape file s Hinv) as [Hh Hi].
  assert (Hlen : Z.of_nat (length (firstn (Z.to_nat (historyIndex s + 1)) (history s)))
                 = historyIndex s + 1).
  { rewrite length_firstn. lia. }
  assert (Hkeep : Js.index (firstn (Z.to_nat (historyIndex s + 1)) (history s) ++ [file])
                    (historyIndex s) = Js.index (history s) (historyIndex s)).
  { destruct (index_app_firstn _ (history s) file (historyIndex s) Hidx) as [H | H];
      [exact H | lia]. }
  remember (firstn (Z.to_nat (historyIndex s + 1)) (history s)) as prefix eqn:Hprefix.
  clear Hprefix.
  assert (Hcur : currentImage (addImageToHistory file s) = Some file).
  { unfold currentImage. rewrite Hh, Hi, <- Hlen. apply index_app_last. }
  assert (Hredo : canRedo (addImageToHistory file s) = false).
  { unfold canRedo. rewrite Hh, Hi, length_app, Nat2Z.inj_add, Hlen. simpl.
    apply Z.ltb_ge. lia. }
  assert (Hundo : canUndo (addImageToHistory file s) = true).
  { unfold canUndo. rewrite Hi. apply Z.ltb_lt. lia. }
  destruct (handleUndo_effect (addImageToHistory file s)) as [Huh Hui].
  rewrite Hundo, Hi in Hui.
  destruct (handleRedo_effect (handleUndo (addImageToHistory file s))) as [Hrh Hri].
  assert (Hcan : canRedo (handleUndo (addImageToHistory file s)) = true).
  { unfold canRedo. rewrite Huh, Hui, Hh, length_app, Nat2Z.inj_add, Hlen. simpl.
    apply Z.ltb_lt. lia. }
  rewrite Hcan, Huh, Hui in *.
  split; [exact Hcur|]. split; [exact Hredo|]. split; [exact Hundo|]. split.
  - unfold currentImage. rewrite Huh, Hui, Hh.
    replace (historyIndex s + 1 - 1) with (historyIndex s) by lia.
    exact Hkeep.
  - unfold currentImage. rewrite Hrh, Hri, Hh.
    replace (historyIndex s + 1 - 1 + 1) with (historyIndex s + 1) by lia.
    rewrite <- Hlen. apply index_app_last.
Qed.

Lemma commit_then_undo_returns_witness :
  (historyInvariant (Sample.session [Sample.versionA; Sample.versionB; Sample.versionC] 1)
   /\ 0 <= historyIndex (Sample.session [Sample.versionA; Sample.versionB; Sample.versionC] 1))
  /\ currentImage
       (handleUndo (addImageToHistory Sample.versionD
          (Sample.session [Sample.versionA; Sample.versionB; Sample.versionC] 1)))
     = Some Sample.versionB.
Proof.
  assert (Hinv : historyInvariant
                   (Sample.session [Sample.versionA; Sample.versionB; Sample.versionC] 1))
    by (unfold historyInvariant; simpl; lia).
  assert (Hidx : 0 <= historyIndex
                   (Sample.session [Sample.versionA; Sample.versionB; Sample.versionC] 1))
    by (simpl; lia).
  split; [split; assumption|].
  destruct (commit_then_undo_returns Sample.versionD _ Hinv Hidx) as (_ & _ & _ & H & _).
  rewrite H. reflexivity.
Defined.

(** [k] undos walk back [k] versions and stop at the first one, never
    touching the array; as many undos as the index is high land where reset
    lands; and a redo followed by an undo is back where it started. *)
Theorem undo_repeated (s : AppState) :
  historyInvariant s -> 0 <= historyIndex s ->
  (forall k : nat,
      history (Nat.iter k handleUndo s) = history s
      /\ historyIndex (Nat.iter k handleUndo s)
         = Z.max (historyIndex s - Z.of_nat k) 0)
  /\ historyIndex (Nat.iter (Z.to_nat (historyIndex s)) handleUndo s)
     = historyIndex (handleReset s)
  /\ history (handleReset s) = history s
  /\ (canRedo s = true ->
      historyIndex (handleUndo (handleRedo s)) = historyIndex s
      /\ currentImage (handleUndo (handleRedo s)) = currentImage s).
Proof.
  intros Hinv Hidx. unfold historyInvariant in Hinv.
  assert (Hiter : forall k : nat,
      history (Nat.iter k handleUndo s) = history s
      /\ historyIndex (Nat.iter k handleUndo s)
         = Z.max (historyIndex s - Z.of_nat k) 0).
  { induction k as [|k [IHh IHi]].
    - simpl. split; [reflexivity | lia].
    - rewrite Nat.iter_succ.
      destruct (handleUndo_effect (Nat.iter k handleUndo s)) as [Hh Hi].
      rewrite Hh, Hi, IHh. split; [reflexivity|].
      unfold canUndo. rewrite IHi.
      destruct (0 <? _) eqn:Hlt; [apply Z.ltb_lt in Hlt | apply Z.ltb_ge in Hlt]; lia. }
  assert (Hreset : handleReset s
                   = s |> setHistoryIndex 0 |> setError None |> clearMasks).
  { unfold handleReset.
    replace (0 <? length (history s))%nat with true; [reflexivity|].
    symmetry. apply Nat.ltb_lt. lia. }
  split; [exact Hiter|]. split.
  - destruct (Hiter (Z.to_nat (historyIndex s))) as [_ Hi].
    rewrite Hi, Hreset. cbn [historyIndex clearMasks setHasPreserveMask setHasEditMask
      setPreserveMaskCanvas setEditMaskCanvas setError setHistoryIndex]. lia.
  - split; [rewrite Hreset; reflexivity|].
    intros Hredo.
    destruct (handleRedo_effect s) as [Hrh Hri]. rewrite Hredo in Hri.
    destruct (handleUndo_effect (handleRedo s)) as [Huh Hui].
    assert (Hcan : canUndo (handleRedo s) = true).
    { unfold canUndo. rewrite Hri. apply Z.ltb_lt. lia. }
    rewrite Hcan, Hri in Hui.
    assert (Hback : historyIndex (handleUndo (handleRedo s)) = historyIndex s) by lia.
    split; [exact Hback|].
    unfold currentImage. now rewrite Hback, Huh, Hrh.
Qed.

Lemma undo_repeated_witness :
  (historyInvariant (Sample.session [Sample.versionA; Sample.versionB; Sample.versionC] 2)
   /\ 0 <= historyIndex (Sample.session [Sample.versionA; Sample.versionB; Sample.versionC] 2))
  /\ historyIndex
       (Nat.iter 5 handleUndo
          (Sample.session [Sample.versionA; Sample.versionB; Sample.versionC] 2))
     = 0.
Proof.
  assert (Hinv : historyInvariant
                   (Sample.session [Sample.versionA; Sample.versionB; Sample.versionC] 2))
    by (unfold historyInvariant; simpl; lia).
  assert (Hidx : 0 <= historyIndex
                   (Sample.session [Sample.versionA; Sample.versionB; Sample.versionC] 2))
    by (simpl; lia).
  split; [split; assumption|].
  destruct (undo_repeated _ Hinv Hidx) as [H _].
  destruct (H 5%nat) as [_ Hi]. rewrite Hi. reflexivity.
Defined.

(** ** Painting and the content flags *)




Lemma clearRect_idempotent (c : Canvas) : clearRect (clearRect c) = clearRect c.
Proof. unfold clearRect. cbn [cv_width cv_height cv_pixels]. now rewrite map_map. Qed.

Lemma checkCanvasContent_clearRect (canvas : option Canvas) :
  checkCanvasContent (option_map clearRect canvas) = false.
Proof.
  destruct canvas as [c|]; [|reflexivity].
  apply checkCanvasContent_false_iff.
  unfold allTransparent. apply Forall_forall. intros p Hp.
  pose proof (clearRect_transparent c) as H. rewrite Forall_forall in H.
  now rewrite (H p Hp).
Qed.

(** [clearMasks] keeps the size of both canvases, leaves no sample that
    the content scan would find, so that the flags it lowers agree with the
    layers, and clearing twice is clearing once. *)
Theorem clearMasks_consistent (s : AppState) :
  checkCanvasContent (editMaskCanvas (clearMasks s)) = hasEditMask (clearMasks s)
  /\ checkCanvasContent (preserveMaskCanvas (clearMasks s))
     = hasPreserveMask (clearMasks s)
  /\ (forall c, editMaskCanvas s = Some c ->
        exists c', editMaskCanvas (clearMasks s) = Some c'
                   /\ cv_width c' = cv_width c /\ cv_height c' = cv_height c
                   /\ length (cv_pixels c') = length (cv_pixels c))
  /\ clearMasks (clearMasks s) = clearMasks s.
Proof.
  split; [apply checkCanvasContent_clearRect|].
  split; [apply checkCanvasContent_clearRect|].
  split.
  - intros c Hc. exists (clearRect c). unfold clearMasks. cbn [editMaskCanvas
      setHasPreserveMask setHasEditMask setPreserveMaskCanvas setEditMaskCanvas].
    rewrite Hc. split; [reflexivity|]. split; [reflexivity|]. split; [reflexivity|].
    unfold clearRect. cbn [cv_pixels]. apply length_map.
  - unfold clearMasks. project.
    destruct s as [h i p l e t cs cc o f m ec pc d mt he hp ph ca cf].
    cbn [editMaskCanvas preserveMaskCanvas].
    f_equal; destruct ec, pc; cbn [option_map]; now rewrite ?clearRect_idempotent.
Qed.



(** ** Requests to the generation service *)

Lemma scaleAndExportMask_file_inv
    (drawImage : Resampler) (img : ImageElement) (canvas : option Canvas) (f : File) :
  scaleAndExportMask drawImage img canvas = ExportedFile f ->
  exists source,
    canvas = Some source
    /\ 0 < naturalWidth img /\ 0 < naturalHeight img
    /\ f = mkFile "mask.png"
             (ImageContent (naturalWidth img) (naturalHeight img)
                (drawImage source (naturalWidth img) (naturalHeight img)))
    /\ ~ allTransparent (drawImage source (naturalWidth img) (naturalHeight img)).
Proof.
  unfold scaleAndExportMask. destruct canvas as [source|]; [|discriminate].
  destruct ((cv_width source <=? 0) || (cv_height source <=? 0)); [discriminate|].
  cbn [cv_width cv_height cv_pixels].
  destruct ((naturalWidth img <=? 0) || (naturalHeight img <=? 0)) eqn:Hzero.
  { cbn [orb]. discriminate. }
  apply orb_false_iff in Hzero. destruct Hzero as [Hw Hh]. apply Z.leb_gt in Hw, Hh.
  cbn [orb]. unfold canvasToFile. cbn [cv_width cv_height cv_pixels].
  replace (naturalWidth img <=? 0) with false by (symmetry; apply Z.leb_gt; lia).
  replace (naturalHeight img <=? 0) with false by (symmetry; apply Z.leb_gt; lia).
  cbn [orb].
  set (rescaled := drawImage source (naturalWidth img) (naturalHeight img)).
  intros H. exists source. split; [reflexivity|]. split; [exact Hw|]. split; [exact Hh|].
  destruct (firstAlpha rescaled =? 0)%N eqn:Hfirst.
  - destruct (alphaScan (imageDataOf rescaled) 3) eqn:Hscan; cbn [negb] in H;
      [|discriminate].
    injection H as <-. split; [reflexivity|].
    intros Hall. apply alphaScan_false_iff in Hall. fold rescaled in Hall. congruence.
  - injection H as <-. split; [reflexivity|].
    intros Hall. apply firstAlpha_transparent in Hall. fold rescaled in Hall.
    apply N.eqb_neq in Hfirst. contradiction.
Qed.

(** Whatever [handleGenerate] sends is complete: the current version, the
    instruction (not blank), the output size, and an edit mask that is a
    raster of the natural size of the image with some non-zero alpha. A
    preserve mask goes along only if its flag is up, and then it is such a
    raster too. *)
Theorem generate_request_wellformed
    (env : GenerateEnv) (s : AppState) (request : Request) :
  In request (snd (handleGenerate env s)) ->
  exists image editMask preserveMask size img editPixels,
    request = EditRequest image editMask preserveMask (prompt s) size
    /\ currentImage s = Some image
    /\ outputSize s = Some size
    /\ Js.trim (prompt s) <> ""
    /\ hasEditMask s = true
    /\ gen_imgRef env = Some img
    /\ editMask = mkFile "mask.png"
                    (ImageContent (naturalWidth img) (naturalHeight img) editPixels)
    /\ ~ allTransparent editPixels
    /\ (hasPreserveMask s = false -> preserveMask = None)
    /\ (forall mask, preserveMask = Some mask ->
          exists preservePixels,
            mask = mkFile "mask.png"
                     (ImageContent (naturalWidth img) (naturalHeight img) preservePixels)
            /\ ~ allTransparent preservePixels).
Proof.
  unfold handleGenerate.
  destruct (currentImage s) as [image|] eqn:Himage; [|intros []].
  destruct (Js.trim (prompt s)) as [|c rest] eqn:Hprompt; [intros []|].
  cbn [Js.truthy negb].
  destruct (hasEditMask s) eqn:Hflag; [|intros []]. cbn [negb].
  destruct (outputSize s) as [size|] eqn:Hsize; [|intros []].
  destruct (gen_imgRef env) as [img|] eqn:Himg; [|intros []].
  change (editMaskCanvas (s |> setIsLoading true |> setError None))
    with (editMaskCanvas s).
  change (preserveMaskCanvas (s |> setIsLoading true |> setError None))
    with (preserveMaskCanvas s).
  change (hasPreserveMask (s |> setIsLoading true |> setError None))
    with (hasPreserveMask s).
  change (prompt (s |> setIsLoading true |> setError None)) with (prompt s).
  destruct (scaleAndExportMask (gen_drawImage env) img (editMaskCanvas s))
    as [|editMask|message] eqn:Hedit.
  - destruct (if hasPreserveMask s then _ else _); intros [].
  - destruct (scaleAndExportMask_file_inv _ _ _ _ Hedit)
      as (source & _ & _ & _ & HeditFile & HeditAlpha).
    assert (Hsent : forall preserved,
      (if hasPreserveMask s
       then scaleAndExportMask (gen_drawImage env) img (preserveMaskCanvas s)
       else ExportedNull) = preserved ->
      (hasPreserveMask s = false -> exportedFile preserved = None)
      /\ (forall mask, exportedFile preserved = Some mask ->
            exists preservePixels,
              mask = mkFile "mask.png"
                       (ImageContent (naturalWidth img) (naturalHeight img) preservePixels)
              /\ ~ allTransparent preservePixels)).
    { intros preserved Hpreserved. split.
      - intros Hoff. rewrite Hoff in Hpreserved. now subst preserved.
      - intros mask Hmask. destruct preserved as [|f|m]; try discriminate.
        injection Hmask as ->.
        destruct (hasPreserveMask s); [|discriminate].
        destruct (scaleAndExportMask_file_inv _ _ _ _ Hpreserved)
          as (src & _ & _ & _ & Hfile & Halpha).
        eexists. split; [exact Hfile | exact Halpha]. }
    destruct (if hasPreserveMask s then _ else _) as [|preserved|message] eqn:Hpreserve.
    + destruct (Hsent _ eq_refl) as [Hoff Hmask].
      destruct (gen_reply env); cbn [snd]; intros [<- | []];
        eexists image, editMask, _, size, img, _;
        repeat (split; [first [reflexivity | eassumption | discriminate]|]);
        assumption.
    + destruct (Hsent _ eq_refl) as [Hoff Hmask].
      destruct (gen_reply env); cbn [snd]; intros [<- | []];
        eexists image, editMask, _, size, img, _;
        repeat (split; [first [reflexivity | eassumption | discriminate]|]);
        assumption.
    + intros [].
  - intros [].
Qed.

Lemma generate_request_wellformed_witness :
  In Fixture.hatRequest (snd (handleGenerate Sample.generateEnv Fixture.readyToGenerate))
  /\ hasEditMask Fixture.readyToGenerate = true
  /\ currentImage Fixture.readyToGenerate = Some Sample.versionA.
Proof.
  assert (Hin : In Fixture.hatRequest
                  (snd (handleGenerate Sample.generateEnv Fixture.readyToGenerate)))
    by (left; vm_compute; reflexivity).
  split; [exact Hin|].
  destruct (generate_request_wellformed Sample.generateEnv Fixture.readyToGenerate
              Fixture.hatRequest Hin)
    as (image & editMask & preserveMask & size & img & px
        & Hreq & Himage & _ & _ & Hflag & _).
  split; [exact Hflag|].
  rewrite Himage. injection Hreq as <- _ _ _. reflexivity.
Defined.

(** Each generative handler sends at most one request, and leaves the busy
    flag down whenever it was down when the handler ran: on success, on a
    failure of the service and on every early return alike. *)
Theorem busy_flag_cleared (s : AppState) :
  isLoading s = false ->
  (forall env,
      isLoading (fst (handleGenerate env s)) = false
      /\ (length (snd (handleGenerate env s)) <= 1)%nat)
  /\ (forall reply text,
      isLoading (fst (handleApplyFilter reply text s)) = false
      /\ (length (snd (handleApplyFilter reply text s)) <= 1)%nat)
  /\ (forall reply text,
      isLoading (fst (handleApplyAdjustment reply text s)) = false
      /\ (length (snd (handleApplyAdjustment reply text s)) <= 1)%nat).
Proof.
  intros Hidle. split; [|split].
  - intros env. unfold handleGenerate.
    repeat break_match; cbn [fst snd length]; (split; [|lia]);
      first [exact Hidle | reflexivity].
  - intros reply text. unfold handleApplyFilter.
    repeat break_match; cbn [fst snd length]; (split; [|lia]);
      first [exact Hidle | reflexivity].
  - intros reply text. unfold handleApplyAdjustment.
    repeat break_match; cbn [fst snd length]; (split; [|lia]);
      first [exact Hidle | reflexivity].
Qed.

Lemma busy_flag_cleared_witness :
  isLoading Fixture.readyToGenerate = false
  /\ isLoading (fst (handleGenerate Sample.generateEnv Fixture.readyToGenerate)) = false.
Proof.
  split; [reflexivity|].
  destruct (busy_flag_cleared Fixture.readyToGenerate eq_refl) as [H _].
  exact (proj1 (H Sample.generateEnv)).
Defined.

Lemma index_some_bounds (A : Type) (arr : list A) (i : Z) (x : A) :
  Js.index arr i = Some x -> 0 <= i <= Z.of_nat (length arr) - 1.
Proof.
  unfold Js.index. destruct (i <? 0) eqn:Hneg; [discriminate|].
  apply Z.ltb_ge in Hneg. intros H.
  assert (Hlt : (Z.to_nat i < length arr)%nat).
  { apply nth_error_Some. congruence. }
  lia.
Qed.

(** What a commit does, on the array and the index alone. *)
Lemma push_slice_current (arr : list File) (i : Z) (file : File) :
  0 <= i <= Z.of_nat (length arr) - 1 ->
  let newHistory := Js.push (Js.slice arr 0 (i + 1)) file in
  Z.of_nat (length newHistory) - 1 = i + 1
  /\ Js.index newHistory (Z.of_nat (length newHistory) - 1) = Some file.
Proof.
  intros Hi newHistory. subst newHistory. unfold Js.push.
  rewrite slice_from_start by lia.
  assert (Hlen : Z.of_nat (length (firstn (Z.to_nat (i + 1)) arr)) = i + 1).
  { rewrite length_firstn. lia. }
  remember (firstn (Z.to_nat (i + 1)) arr) as prefix eqn:Hprefix. clear Hprefix.
  rewrite length_app, Nat2Z.inj_add. simpl length.
  split; [lia|].
  replace (Z.of_nat (length prefix) + Z.of_nat 1 - 1) with (Z.of_nat (length prefix)) by lia.
  apply index_app_last.
Qed.


(** A filter or an adjustment that goes through, on a session showing
    [image]: the one request carries that image, the text and the output
    size; the returned file becomes the current version, one step further,
    with nothing left to redo; the ledger gains the entry of that kind, the
    error is cleared and the output size stays. *)
Theorem filter_or_adjustment_success
    (file image : File) (size : OutputSize) (text : string) (s : AppState) :
  currentImage s = Some image -> outputSize s = Some size ->
  (snd (handleApplyFilter (Resolved file) text s) = [FilterRequest image text size]
   /\ currentImage (fst (handleApplyFilter (Resolved file) text s)) = Some file
   /\ historyIndex (fst (handleApplyFilter (Resolved file) text s)) = historyIndex s + 1
   /\ canRedo (fst (handleApplyFilter (Resolved file) text s)) = false
   /\ promptHistory (fst (handleApplyFilter (Resolved file) text s))
      = promptHistory s ++ [mkItem ledger_filters text]
   /\ error (fst (handleApplyFilter (Resolved file) text s)) = None
   /\ outputSize (fst (handleApplyFilter (Resolved file) text s)) = Some size)
  /\ (snd (handleApplyAdjustment (Resolved file) text s) = [AdjustRequest image text size]
      /\ currentImage (fst (handleApplyAdjustment (Resolved file) text s)) = Some file
      /\ historyIndex (fst (handleApplyAdjustment (Resolved file) text s))
         = historyIndex s + 1
      /\ canRedo (fst (handleApplyAdjustment (Resolved file) text s)) = false
      /\ promptHistory (fst (handleApplyAdjustment (Resolved file) text s))
         = promptHistory s ++ [mkItem ledger_adjust text]
      /\ error (fst (handleApplyAdjustment (Resolved file) text s)) = None
      /\ outputSize (fst (handleApplyAdjustment (Resolved file) text s)) = Some size).
Proof.
  intros Himage Hsize.
  pose proof (index_some_bounds _ _ _ _ Himage) as Hbounds.
  unfold handleApplyFilter, handleApplyAdjustment. rewrite Himage, Hsize.
  destruct s as [h i p l e tab cs cc o f m ec pc d tool he hp ph ca cf].
  cbn [history historyIndex outputSize] in Hbounds, Hsize.
  destruct (push_slice_current h i file Hbounds) as [Hlen Hlast].
  cbv zeta in Hlen, Hlast.
  unfold currentImage, canRedo. project.
  repeat split; try assumption; try (apply Z.ltb_ge; lia).
Qed.

Lemma filter_or_adjustment_success_witness :
  (currentImage Fixture.twoVersions = Some Sample.versionB
   /\ outputSize Fixture.twoVersions = Some (mkSize 2 1))
  /\ currentImage
       (fst (handleApplyFilter (Resolved Sample.versionD) "sepia" Fixture.twoVersions))
     = Some Sample.versionD.
Proof.
  split; [split; reflexivity|].
  destruct (filter_or_adjustment_success Sample.versionD Sample.versionB (mkSize 2 1)
              "sepia" Fixture.twoVersions eq_refl eq_refl) as [(_ & H & _) _].
  exact H.
Defined.

(** "Upload new" leaves an empty session, whatever came before: no current
    version, nothing to undo or redo, an empty ledger, no output size. Until
    the next upload the generative handlers send nothing, navigation and the
    output size fields do nothing. *)
Theorem handleUploadNew_empties (s : AppState) :
  history (handleUploadNew s) = []
  /\ currentImage (handleUploadNew s) = None
  /\ canUndo (handleUploadNew s) = false
  /\ canRedo (handleUploadNew s) = false
  /\ promptHistory (handleUploadNew s) = []
  /\ outputSize (handleUploadNew s) = None
  /\ masksCleared (handleUploadNew s)
  /\ (forall env,
        snd (handleGenerate env (handleUploadNew s)) = []
        /\ history (fst (handleGenerate env (handleUploadNew s))) = [])
  /\ (forall reply text,
        snd (handleApplyFilter reply text (handleUploadNew s)) = []
        /\ history (fst (handleApplyFilter reply text (handleUploadNew s))) = [])
  /\ (forall reply text,
        snd (handleApplyAdjustment reply text (handleUploadNew s)) = []
        /\ history (fst (handleApplyAdjustment reply text (handleUploadNew s))) = [])
  /\ handleUndo (handleUploadNew s) = handleUploadNew s
  /\ handleRedo (handleUploadNew s) = handleUploadNew s
  /\ handleReset (handleUploadNew s) = handleUploadNew s
  /\ (forall value,
        handleWidthChange value (handleUploadNew s) = handleUploadNew s
        /\ handleHeightChange value (handleUploadNew s) = handleUploadNew s).
Proof.
  assert (Hmasks : masksCleared (handleUploadNew s)) by apply clearMasks_cleared.
  revert Hmasks.
  destruct s as [h i p l e tab cs cc o f m ec pc d tool he hp ph ca cf].
  unfold handleUploadNew. project.
  set (empty := mkApp [] (-1) "" l None tab cs cc None f m
                  (option_map clearRect ec) (option_map clearRect pc)
                  d tool false false [] "" "").
  intros Hmasks.
  split; [reflexivity|]. split; [reflexivity|]. split; [reflexivity|].
  split; [reflexivity|]. split; [reflexivity|]. split; [reflexivity|].
  split; [exact Hmasks|].
  split; [intros env; split; reflexivity|].
  split; [intros reply text; split; reflexivity|].
  split; [intros reply text; split; reflexivity|].
  split; [reflexivity|]. split; [reflexivity|]. split; [reflexivity|].
  intros value. split; reflexivity.
Qed.

(** ** The name of a download *)

Lemma allChars_app (test : ascii -> bool) (a b : string) :
  allChars test (a ++ b)%string = allChars test a && allChars test b.
Proof.
  induction a as [|c a IH]; [reflexivity|].
  simpl. rewrite IH. now rewrite andb_assoc.
Qed.

Lemma truthy_true_iff (s : string) : Js.truthy s = true <-> s <> "".
Proof. destruct s; simpl; split; congruence. Qed.

Lemma stripExtension_cut (base ext : string) :
  ext <> "" -> allChars notSlashOrDot ext = true ->
  stripExtension (base ++ "." ++ ext)%string = base.
Proof.
  intros Hne Hext. change ("." ++ ext)%string with (String "." ext).
  induction base as [|c base IH].
  - simpl. apply truthy_true_iff in Hne. rewrite Hne, Hext. reflexivity.
  - cbn [append stripExtension]. rewrite IH.
    replace (allChars notSlashOrDot (base ++ String "." ext)%string) with false.
    + now rewrite andb_false_r.
    + rewrite allChars_app. cbn [allChars]. unfold notSlashOrDot at 2.
      rewrite Ascii.eqb_refl. cbn. now rewrite andb_false_r.
Qed.

Lemma stripExtension_prefix (name : string) :
  stripExtension name = name
  \/ exists ext,
       ext <> "" /\ allChars notSlashOrDot ext = true
       /\ name = (stripExtension name ++ "." ++ ext)%string.
Proof.
  induction name as [|c rest IH]; [left; reflexivity|].
  cbn [stripExtension].
  destruct (Ascii.eqb c "." && Js.truthy rest && allChars notSlashOrDot rest) eqn:Hcut.
  - right. apply andb_prop in Hcut. destruct Hcut as [Hcut Hall].
    apply andb_prop in Hcut. destruct Hcut as [Hdot Hrest].
    apply Ascii.eqb_eq in Hdot. subst c. exists rest.
    split; [now apply truthy_true_iff|]. split; [exact Hall | reflexivity].
  - destruct IH as [IH | (ext & Hne & Hall & IH)].
    + left. now rewrite IH.
    + right. exists ext. split; [exact Hne|]. split; [exact Hall|].
      change (String c (stripExtension rest) ++ "." ++ ext)%string
        with (String c (stripExtension rest ++ "." ++ ext))%string.
      now rewrite <- IH.
Qed.

(** The name a download is saved under: the name of the current version
    with its last extension cut off (a final dot followed by characters
    other than dot and slash), or "imagem" when nothing is left, between
    "editada-" and the extension of the chosen format. A name without such
    an ending is kept whole. *)
Theorem downloadFileName_cuts_extension (base ext : string) (format : Format) :
  ext <> "" -> allChars notSlashOrDot ext = true ->
  downloadFileName (base ++ "." ++ ext)%string format
  = ("editada-" ++ (if Js.truthy base then base else "imagem")
     ++ "." ++ fileExtension format)%string
  /\ (fileExtension format = "jpg" \/ fileExtension format = "png")
  /\ (forall name,
        stripExtension name = name
        \/ exists cut, cut <> "" /\ allChars notSlashOrDot cut = true
                       /\ name = (stripExtension name ++ "." ++ cut)%string).
Proof.
  intros Hne Hext. unfold downloadFileName.
  rewrite stripExtension_cut by assumption.
  split; [reflexivity|]. split; [destruct format; [right | left]; reflexivity|].
  apply stripExtension_prefix.
Qed.

Lemma downloadFileName_cuts_extension_witness :
  ("png" <> "" /\ allChars notSlashOrDot "png" = true)
  /\ downloadFileName "holiday.photo.png" jpeg = "editada-holiday.photo.jpg"
  /\ downloadFileName ".png" png = "editada-imagem.png".
Proof.
  assert (Hne : "png" <> "") by discriminate.
  split; [split; [exact Hne | reflexivity]|].
  split.
  - exact (proj1 (downloadFileName_cuts_extension "holiday.photo" "png" jpeg Hne eq_refl)).
  - exact (proj1 (downloadFileName_cuts_extension "" "png" png Hne eq_refl)).
Defined.

(** ** Reading the replies of the generation service *)

Lemma findInlineData_first (parts : list Part) (inline : InlineData) :
  findInlineData (Some parts) = Some inline
  <-> exists before part after,
        parts = before ++ part :: after
        /\ Forall (fun p => part_inlineData p = None) before
        /\ part_inlineData part = Some inline.
Proof.
  unfold findInlineData. induction parts as [|p parts IH].
  - simpl. split; [discriminate|]. intros (before & part & after & H & _).
    destruct before; discriminate.
  - cbn [find]. unfold hasInlineData at 1.
    destruct (part_inlineData p) as [found|] eqn:Hp.
    + rewrite Hp. split.
      * intros H. injection H as <-. exists [], p, parts. repeat split; [constructor | exact Hp].
      * intros (before & part & after & Hsplit & Hnone & Hpart).
        destruct before as [|b before].
        -- injection Hsplit as <- _. congruence.
        -- injection Hsplit as <- _. inversion Hnone; congruence.
    + rewrite IH. split.
      * intros (before & part & after & -> & Hnone & Hpart).
        exists (p :: before), part, after. repeat split; [constructor; assumption | exact Hpart].
      * intros (before & part & after & Hsplit & Hnone & Hpart).
        destruct before as [|b before].
        -- injection Hsplit as <- _. congruence.
        -- injection Hsplit as <- ->. inversion Hnone; subst.
           exists before, part, after. repeat split; assumption.
Qed.

(** [handleApiResponse] returns a data URL exactly when the reply is not
    blocked and the first candidate has a part with inline data; the URL is
    made of the first such part. A block reason wins over any image, and
    the candidates after the first are never looked at. *)
Theorem handleApiResponse_returns_iff
    (response : GenerateContentResponse) (context url : string) :
  (handleApiResponse response context = Returns url
   <-> blockedBy response = None
       /\ exists inline,
            findInlineData (firstParts response) = Some inline
            /\ url = ("data:" ++ mimeType inline ++ ";base64," ++ data inline)%string)
  /\ (forall feedback,
        promptFeedback response = Some feedback -> blockReason feedback <> "" ->
        handleApiResponse response context
        = Throws ("A solicitação foi bloqueada. Motivo: " ++ blockReason feedback
                  ++ ". " ++ orEmpty (blockReasonMessage feedback))%string)
  /\ (forall first others others',
        candidates response = Some (first :: others) ->
        handleApiResponse response context
        = handleApiResponse
            (mkResponse (Some (first :: others')) (promptFeedback response)
               (response_text response)) context)
  /\ (forall inline,
        findInlineData (firstParts response) = Some inline
        <-> exists before part after,
              firstParts response = Some (before ++ part :: after)
              /\ Forall (fun p => part_inlineData p = None) before
              /\ part_inlineData part = Some inline).
Proof.
  split; [|split; [|split]].
  - unfold handleApiResponse.
    destruct (blockedBy response) as [feedback|].
    + split; [discriminate | intros [H _]; discriminate].
    + destruct (findInlineData (firstParts response)) as [inline|].
      * split.
        -- intros H. injection H as <-. split; [reflexivity|]. now exists inline.
        -- intros (_ & inline' & H & ->). now injection H as <-.
      * split.
        -- destruct (_ && _); discriminate.
        -- intros (_ & inline & H & _). discriminate.
  - intros feedback Hfeedback Hreason. unfold handleApiResponse, blockedBy.
    rewrite Hfeedback. apply truthy_true_iff in Hreason. now rewrite Hreason.
  - intros first others others' Hcandidates.
    unfold handleApiResponse, noImageMessage, blockedBy, firstParts, firstCandidate.
    cbn [candidates promptFeedback response_text]. now rewrite Hcandidates.
  - intros inline. destruct (firstParts response) as [parts|].
    + rewrite findInlineData_first. split.
      * intros (before & part & after & -> & H). now exists before, part, after.
      * intros (before & part & after & Hparts & H). injection Hparts as ->.
        now exists before, part, after.
    + split; [discriminate | intros (b & p & a & H & _); discriminate].
Qed.

Lemma withText_keeps (body : GenerateContentResponse) :
  candidates (withText body) = candidates body
  /\ promptFeedback (withText body) = promptFeedback body.
Proof.
  unfold withText. destruct (firstParts body) as [parts|]; [|split; reflexivity].
  destruct (existsb _ parts); split; reflexivity.
Qed.

Lemma handleApiResponse_withText
    (body : GenerateContentResponse) (context url : string) :
  handleApiResponse (withText body) context = Returns url
  <-> handleApiResponse body context = Returns url.
Proof.
  destruct (withText_keeps body) as [Hc Hf].
  unfold handleApiResponse, blockedBy, firstParts, firstCandidate.
  rewrite Hc, Hf.
  destruct (promptFeedback body) as [feedback|].
  - destruct (Js.truthy (blockReason feedback)); [reflexivity|].
    destruct (findInlineData _); [reflexivity|].
    split; destruct (_ && _); discriminate.
  - destruct (findInlineData _); [reflexivity|].
    split; destruct (_ && _); discriminate.
Qed.

(** The client side of a generation call as a whole: it yields a data URL
    exactly when the exchange with the proxy was a success, and the reply is
    unblocked with an image in its first candidate; the text parts of the
    reply have no say in that. A failed exchange throws with the error the
    proxy sent, or a default, behind a fixed prefix. *)
Theorem generatedDataUrl_returns_iff (reply : ProxyReply) (context url : string) :
  (generatedDataUrl reply context = Returns url
   <-> exists error body,
         reply = HttpReply true error body
         /\ handleApiResponse body context = Returns url)
  /\ (forall error body,
        reply = HttpReply false error body ->
        generatedDataUrl reply context
        = Throws ("Falha na comunicação com o servidor de IA. "
                  ++ (if Js.truthy (orEmpty error) then orEmpty error
                      else "A resposta da rede não foi bem-sucedida."))%string)
  /\ (forall message,
        reply = FetchFails message ->
        generatedDataUrl reply context
        = Throws ("Falha na comunicação com o servidor de IA. " ++ message)%string).
Proof.
  split; [|split].
  - unfold generatedDataUrl, callModelViaProxy. destruct reply as [message|ok error body].
    + split; [discriminate | intros (e & b & H & _); discriminate].
    + destruct ok; cbn [negb].
      * rewrite handleApiResponse_withText. split.
        -- intros H. now exists error, body.
        -- intros (e & b & H & Hb). now injection H as <- <-.
      * split; [discriminate | intros (e & b & H & _); discriminate].
  - intros error body ->. reflexivity.
  - intros message ->. reflexivity.
Qed.

(** ** Data URLs *)

Lemma string_app_assoc (a b c : string) :
  ((a ++ b) ++ c)%string = (a ++ b ++ c)%string.
Proof. induction a as [|x a IH]; [reflexivity|]. cbn [append]. now rewrite IH. Qed.

Lemma beforeComma_app (a b : string) :
  allChars notComma a = true -> beforeComma (a ++ String "," b)%string = a.
Proof.
  induction a as [|c a IH]; intros Ha.
  - reflexivity.
  - cbn [allChars] in Ha. apply andb_prop in Ha. destruct Ha as [Hc Ha].
    cbn [append beforeComma]. unfold notComma in Hc. apply negb_true_iff in Hc.
    rewrite Hc. now rewrite IH.
Qed.

Lemma afterComma_app (a b : string) :
  allChars notComma a = true -> afterComma (a ++ String "," b)%string = Some b.
Proof.
  induction a as [|c a IH]; intros Ha.
  - reflexivity.
  - cbn [allChars] in Ha. apply andb_prop in Ha. destruct Ha as [Hc Ha].
    cbn [append afterComma]. unfold notComma in Hc. apply negb_true_iff in Hc.
    rewrite Hc. now apply IH.
Qed.

Lemma beforeComma_none (a : string) :
  allChars notComma a = true -> beforeComma a = a /\ afterComma a = None.
Proof.
  induction a as [|c a IH]; intros Ha; [split; reflexivity|].
  cbn [allChars] in Ha. apply andb_prop in Ha. destruct Ha as [Hc Ha].
  cbn [beforeComma afterComma]. unfold notComma in Hc. apply negb_true_iff in Hc.
  rewrite Hc. destruct (IH Ha) as [H1 H2]. now rewrite H1, H2.
Qed.

Lemma upToSemicolon_app (mime rest : string) :
  allChars mimeChar mime = true ->
  upToSemicolon (mime ++ String ";" rest)%string = Some mime.
Proof.
  induction mime as [|c mime IH]; intros Hm.
  - reflexivity.
  - cbn [allChars] in Hm. apply andb_prop in Hm. destruct Hm as [Hc Hm].
    unfold mimeChar in Hc. apply andb_prop in Hc. destruct Hc as [Hc Hline].
    apply andb_prop in Hc. destruct Hc as [_ Hsemi].
    apply negb_true_iff in Hsemi, Hline.
    cbn [append upToSemicolon]. rewrite Hsemi, Hline. now rewrite IH.
Qed.

Lemma allChars_weaken (test test' : ascii -> bool) (s : string) :
  (forall c, test c = true -> test' c = true) ->
  allChars test s = true -> allChars test' s = true.
Proof.
  intros Himp. induction s as [|c s IH]; [reflexivity|].
  cbn [allChars]. intros H. apply andb_prop in H. destruct H as [Hc Hs].
  now rewrite (Himp c Hc), IH.
Qed.

(** [fileToPart] reads back what [handleApiResponse] writes: for a MIME type
    that is not empty and free of commas, semicolons and line breaks, and
    data free of commas (base64 has none), the data URL made of them parses
    to that MIME type and that data. A URL without a comma is refused. *)
Theorem fileToPart_reads_data_url (inline : InlineData) :
  mimeType inline <> "" -> allChars mimeChar (mimeType inline) = true ->
  allChars notComma (data inline) = true ->
  fileToPart ("data:" ++ mimeType inline ++ ";base64," ++ data inline)%string
  = Returns inline
  /\ (forall response context,
        blockedBy response = None ->
        findInlineData (firstParts response) = Some inline ->
        match handleApiResponse response context with
        | Returns url => fileToPart url = Returns inline
        | Throws _ => False
        end)
  /\ (forall url, allChars notComma url = true ->
        fileToPart url = Throws "Invalid data URL").
Proof.
  intros Hne Hmime Hdata.
  assert (Hcomma : allChars notComma ("data:" ++ mimeType inline ++ ";base64")%string = true).
  { cbn [append allChars]. rewrite allChars_app.
    rewrite (allChars_weaken mimeChar notComma); [reflexivity | | exact Hmime].
    intros c Hc. unfold mimeChar in Hc. apply andb_prop in Hc. destruct Hc as [Hc _].
    apply andb_prop in Hc. now destruct Hc. }
  assert (Hparse :
    fileToPart ("data:" ++ mimeType inline ++ ";base64," ++ data inline)%string
    = Returns inline).
  { replace ("data:" ++ mimeType inline ++ ";base64," ++ data inline)%string
      with (("data:" ++ mimeType inline ++ ";base64") ++ String "," (data inline))%string.
    2:{ cbn [append]. do 5 f_equal. rewrite string_app_assoc. reflexivity. }
    unfold fileToPart. rewrite afterComma_app, beforeComma_app by exact Hcomma.
    cbn [append matchMime Ascii.eqb Bool.eqb].
    change (mimeType inline ++ ";base64")%string
      with (mimeType inline ++ String ";" "base64")%string.
    rewrite upToSemicolon_app by exact Hmime.
    apply truthy_true_iff in Hne. rewrite Hne.
    destruct (beforeComma_none (data inline) Hdata) as [Hb _]. rewrite Hb.
    now destruct inline. }
  split; [exact Hparse|]. split.
  - intros response context Hblock Hfound. unfold handleApiResponse.
    rewrite Hblock, Hfound. exact Hparse.
  - intros url Hurl. unfold fileToPart.
    destruct (beforeComma_none url Hurl) as [_ Hnone]. now rewrite Hnone.
Qed.

Lemma fileToPart_reads_data_url_witness :
  (mimeType (mkInline "image/png" "iVBORw0KGgo=") <> ""
   /\ allChars mimeChar (mimeType (mkInline "image/png" "iVBORw0KGgo=")) = true
   /\ allChars notComma (data (mkInline "image/png" "iVBORw0KGgo=")) = true)
  /\ fileToPart "data:image/png;base64,iVBORw0KGgo="
     = Returns (mkInline "image/png" "iVBORw0KGgo=").
Proof.
  assert (Hne : mimeType (mkInline "image/png" "iVBORw0KGgo=") <> "") by discriminate.
  split; [split; [exact Hne | split; reflexivity]|].
  exact (proj1 (fileToPart_reads_data_url (mkInline "image/png" "iVBORw0KGgo=")
                  Hne eq_refl eq_refl)).
Defined.

(** ** The proxy *)

Lemma lookup_app (key : string) (a b : list (string * Json)) :
  lookup key (a ++ b)
  = match lookup key b with
    | Some later => Some later
    | None => lookup key a
    end.
Proof.
  induction a as [|[k v] a IH]; cbn [app lookup].
  - now destruct (lookup key b).
  - rewrite IH. now destruct (lookup key b).
Qed.

Lemma lookup_filter_out (key removed : string) (entries : list (string * Json)) :
  lookup key (filter (fun entry => negb (String.eqb (fst entry) removed)) entries)
  = if String.eqb key removed then None else lookup key entries.
Proof.
  induction entries as [|[k v] entries IH]; cbn [filter lookup fst].
  - now destruct (String.eqb key removed).
  - destruct (String.eqb k removed) eqn:Hk; cbn [negb lookup]; rewrite IH;
      destruct (String.eqb key removed) eqn:Hkey; try reflexivity.
    + destruct (lookup key entries); [reflexivity|].
      destruct (String.eqb k key) eqn:Hkk; [|reflexivity].
      apply String.eqb_eq in Hk, Hkk. subst. now rewrite String.eqb_refl in Hkey.
    + destruct (String.eqb k key) eqn:Hkk; [|reflexivity].
      apply String.eqb_eq in Hkey, Hkk. subst. now rewrite String.eqb_refl in Hk.
Qed.

Lemma requiredFields_some_iff (requestBody : Json) :
  (exists fields, requiredFields requestBody = Some fields)
  <-> jsonTruthy (getProperty "model" requestBody) = true
      /\ jsonTruthy (getProperty "contents" requestBody) = true.
Proof.
  unfold requiredFields.
  destruct (getProperty "model" requestBody) as [model|];
    [|split; [intros [f H]; discriminate | intros [H _]; discriminate]].
  destruct (getProperty "contents" requestBody) as [contents|];
    [|split; [intros [f H]; discriminate | intros [_ H]; discriminate]].
  destruct (jsonTruthy (Some model)), (jsonTruthy (Some contents)); cbn [negb orb];
    split; try (intros [f H]; discriminate); try (intros [H1 H2]; discriminate).
  - intros _. now split.
  - intros _. now eexists.
Qed.

Lemma requiredFields_inv (requestBody model contents : Json) :
  requiredFields requestBody = Some (model, contents) ->
  getProperty "model" requestBody = Some model
  /\ getProperty "contents" requestBody = Some contents.
Proof.
  unfold requiredFields.
  destruct (getProperty "model" requestBody) as [m|]; [|discriminate].
  destruct (getProperty "contents" requestBody) as [c|]; [|discriminate].
  destruct (_ || _); [discriminate|]. intros H. injection H as <- <-. now split.
Qed.

Lemma forward_one_call (env : ProxyEnv) (call : UpstreamRequest) :
  snd (forward env call) = [call].
Proof. unfold forward. repeat break_match; reflexivity. Qed.

(** The proxy calls the upstream API at most once, and only for a POST,
    with a key configured, whose body has a model and contents that are
    truthy. It refuses anything else without a call, the method first (405),
    then the key (500), then the body (500 when there is none, else 400). *)
Theorem handler_calls_upstream_iff (env : ProxyEnv) (request : ProxyRequest) :
  (snd (handler env request) <> []
   <-> method request = "POST"
       /\ orEmpty (API_KEY env) <> ""
       /\ exists requestBody,
            body request = Some requestBody
            /\ jsonTruthy (getProperty "model" requestBody) = true
            /\ jsonTruthy (getProperty "contents" requestBody) = true)
  /\ (length (snd (handler env request)) <= 1)%nat
  /\ (method request <> "POST" -> status (fst (handler env request)) = 405)
  /\ (method request = "POST" -> orEmpty (API_KEY env) = "" ->
      status (fst (handler env request)) = 500)
  /\ (method request = "POST" -> orEmpty (API_KEY env) <> "" ->
      (body request = None \/ body request = Some JNull ->
       status (fst (handler env request)) = 500)
      /\ (forall requestBody,
            body request = Some requestBody -> requestBody <> JNull ->
            jsonTruthy (getProperty "model" requestBody) = false
            \/ jsonTruthy (getProperty "contents" requestBody) = false ->
            status (fst (handler env request)) = 400)).
Proof.
  unfold handler.
  destruct (String.eqb (method request) "POST") eqn:Hmethod; cbn [negb].
  2:{ apply String.eqb_neq in Hmethod.
      split; [split; [intros H; now contradiction H | intros [H _]; contradiction]|].
      split; [cbn; lia|]. split; [reflexivity|].
      split; intros H; contradiction. }
  apply String.eqb_eq in Hmethod.
  destruct (Js.truthy (orEmpty (API_KEY env))) eqn:Hkey; cbn [negb].
  2:{ assert (Hempty : orEmpty (API_KEY env) = "")
        by (destruct (orEmpty (API_KEY env)); [reflexivity | discriminate]).
      split; [split; [intros H; now contradiction H | intros (_ & H & _); contradiction]|].
      split; [cbn; lia|]. split; [intros H; contradiction|].
      split; [reflexivity|]. intros _ H. contradiction. }
  assert (Hfull : orEmpty (API_KEY env) <> "") by now apply truthy_true_iff.
  destruct (body request) as [requestBody|].
  2:{ split; [split; [intros H; now contradiction H
                     | intros (_ & _ & b & H & _); discriminate]|].
      split; [cbn; lia|]. split; [intros H; contradiction|].
      split; [intros _ H; contradiction|]. intros _ _.
      split; [reflexivity | intros b H; discriminate]. }
  destruct (isNull requestBody) eqn:Hnull.
  { assert (requestBody = JNull) as -> by (destruct requestBody; (reflexivity || discriminate)).
    split; [split; [intros H; now contradiction H
                   | intros (_ & _ & b & H & Hm & _); injection H as <-; discriminate]|].
    split; [cbn; lia|]. split; [intros H; contradiction|].
    split; [intros _ H; contradiction|]. intros _ _.
    split; [reflexivity | intros b H Hb; injection H as <-; contradiction]. }
  pose proof (requiredFields_some_iff requestBody) as Hfields.
  destruct (requiredFields requestBody) as [[model contents]|].
  - destruct Hfields as [Hfields _].
    destruct (Hfields (ex_intro _ _ eq_refl)) as [Hm Hc].
    rewrite forward_one_call.
    split; [split; [intros _ | intros _; discriminate]|].
    { split; [exact Hmethod|]. split; [exact Hfull|]. now exists requestBody. }
    split; [cbn; lia|]. split; [intros H; contradiction|].
    split; [intros _ H; contradiction|]. intros _ _. split.
    + intros [H | H]; [discriminate | injection H as ->; discriminate].
    + intros b H _ Hfalsy. injection H as <-. destruct Hfalsy; congruence.
  - destruct Hfields as [_ Hfields].
    split; [split; [intros H; now contradiction H|]|].
    { intros (_ & _ & b & H & Hm & Hc). injection H as <-.
      destruct (Hfields (conj Hm Hc)) as [f Hf]. discriminate. }
    split; [cbn; lia|]. split; [intros H; contradiction|].
    split; [intros _ H; contradiction|]. intros _ _. split.
    + intros [H | H]; [discriminate | injection H as ->; discriminate].
    + intros b H _ _. reflexivity.
Qed.

(** What the proxy sends upstream: the model and the key of the request,
    and a body that never has [responseModalities], has every other entry
    of the config, and has the contents of the request unless the config
    brings contents of its own, which then take their place. *)
Theorem handler_forwards_config
    (env : ProxyEnv) (request : ProxyRequest) (call : UpstreamRequest) :
  In call (snd (handler env request)) ->
  exists requestBody,
    body request = Some requestBody
    /\ getProperty "model" requestBody = Some (upstream_model call)
    /\ upstream_key call = orEmpty (API_KEY env)
    /\ lookup "responseModalities" (upstream_body call) = None
    /\ (forall key,
          key <> "responseModalities" -> key <> "contents" ->
          lookup key (upstream_body call)
          = lookup key (configOrEmpty (getProperty "config" requestBody)))
    /\ lookup "contents" (upstream_body call)
       = match lookup "contents" (configOrEmpty (getProperty "config" requestBody)) with
         | Some own => Some own
         | None => getProperty "contents" requestBody
         end.
Proof.
  unfold handler.
  destruct (negb (String.eqb (method request) "POST")); [intros []|].
  destruct (negb (Js.truthy (orEmpty (API_KEY env)))); [intros []|].
  destruct (body request) as [requestBody|]; [|intros []].
  destruct (isNull requestBody); [intros []|].
  destruct (requiredFields requestBody) as [[model contents]|] eqn:Hfields; [|intros []].
  rewrite forward_one_call. intros [<- | []].
  destruct (requiredFields_inv _ _ _ Hfields) as [Hmodel Hcontents].
  exists requestBody. cbn [upstream_model upstream_key upstream_body].
  split; [reflexivity|]. split; [exact Hmodel|]. split; [reflexivity|].
  assert (Hbody : forall key,
    lookup key (("contents", contents) :: restOfConfig (getProperty "config" requestBody))
    = match (if String.eqb key "responseModalities" then None
             else lookup key (configOrEmpty (getProperty "config" requestBody))) with
      | Some later => Some later
      | None => if String.eqb "contents" key then Some contents else None
      end).
  { intros key. cbn [lookup]. unfold restOfConfig. now rewrite lookup_filter_out. }
  split; [|split].
  - rewrite Hbody. reflexivity.
  - intros key Hmod Hcont. rewrite Hbody.
    apply String.eqb_neq in Hmod. rewrite Hmod.
    destruct (lookup key _); [reflexivity|].
    replace (String.eqb "contents" key) with false; [reflexivity|].
    symmetry. apply String.eqb_neq. congruence.
  - rewrite Hbody. cbn [String.eqb Ascii.eqb Bool.eqb]. rewrite Hcontents.
    reflexivity.
Qed.

Lemma errorDetail_truthy (responseData : Json) :
  jsonTruthy (Some (errorDetail responseData)) = true.
Proof.
  unfold errorDetail.
  destruct (match getProperty "error" responseData with
            | Some problem => if isNull problem then None else getProperty "message" problem
            | None => None
            end) as [detail|]; [|reflexivity].
  destruct (jsonTruthy (Some detail)) eqn:H; [exact H | reflexivity].
Qed.

(** What the proxy answers. Its status is a success status only when it is
    200, which happens exactly when the upstream call was made and answered
    with a success status and a JSON body; that body is then passed on as it
    is. Every other answer carries a truthy [error], and an upstream failure
    with a JSON body that is not [null] keeps the status of the upstream
    answer and passes its body on as [details]. *)
Theorem handler_answers (env : ProxyEnv) (request : ProxyRequest) :
  (statusOk (status (fst (handler env request))) = true
   -> status (fst (handler env request)) = 200)
  /\ (status (fst (handler env request)) = 200
      <-> exists call code responseData,
            snd (handler env request) = [call]
            /\ upstream env call = Replied code (Some responseData)
            /\ statusOk code = true
            /\ payload (fst (handler env request)) = responseData)
  /\ (status (fst (handler env request)) <> 200 ->
      jsonTruthy (getProperty "error" (payload (fst (handler env request)))) = true)
  /\ (forall call code responseData,
        snd (handler env request) = [call] ->
        upstream env call = Replied code (Some responseData) ->
        statusOk code = false -> responseData <> JNull ->
        status (fst (handler env request)) = code
        /\ getProperty "details" (payload (fst (handler env request)))
           = Some responseData).
Proof.
  assert (Hforward : forall call,
    (statusOk (status (fst (forward env call))) = true
     -> status (fst (forward env call)) = 200)
    /\ (status (fst (forward env call)) = 200
        <-> exists code responseData,
              upstream env call = Replied code (Some responseData)
              /\ statusOk code = true
              /\ payload (fst (forward env call)) = responseData)
    /\ (status (fst (forward env call)) <> 200 ->
        jsonTruthy (getProperty "error" (payload (fst (forward env call)))) = true)
    /\ (forall code responseData,
          upstream env call = Replied code (Some responseData) ->
          statusOk code = false -> responseData <> JNull ->
          status (fst (forward env call)) = code
          /\ getProperty "details" (payload (fst (forward env call)))
             = Some responseData)).
  { intros call. unfold forward.
    destruct (upstream env call) as [|code [responseData|]].
    - split; [discriminate|]. split; [split; [discriminate | intros (c & d & H & _); discriminate]|].
      split; [reflexivity | intros c d H; discriminate].
    - destruct (statusOk code) eqn:Hok.
      + split; [reflexivity|].
        split; [split; [intros _; now exists code, responseData | reflexivity]|].
        split; [intros H; now contradiction H|].
        intros c d H Hc. injection H as <- <-. congruence.
      + destruct (isNull responseData) eqn:Hnull.
        * split; [discriminate|].
          split; [split; [discriminate
                         | intros (c & d & H & Hc & _); injection H as <- <-; congruence]|].
          split; [reflexivity|].
          intros c d H _ Hd. injection H as <- <-.
          destruct responseData; (discriminate || now contradiction Hd).
        * cbn [fst status payload].
          split; [intros H; congruence|].
          split; [split; [intros ->; discriminate
                         | intros (c & d & H & Hc & _); injection H as <- <-; congruence]|].
          split.
          -- intros _. cbn [getProperty lookup String.eqb Ascii.eqb Bool.eqb].
             apply errorDetail_truthy.
          -- intros c d H _ _. injection H as <- <-. split; reflexivity.
    - split; [discriminate|]. split; [split; [discriminate | intros (c & d & H & _); discriminate]|].
      split; [reflexivity | intros c d H; discriminate]. }
  assert (Hrefusal : forall code message,
    code <> 200 -> statusOk code = false -> Js.truthy message = true ->
    let result : ProxyResponse * list UpstreamRequest :=
      (mkProxyResponse code (errorPayload message), []) in
    (statusOk (status (fst result)) = true -> status (fst result) = 200)
    /\ (status (fst result) = 200
        <-> exists call code' responseData,
              snd result = [call]
              /\ upstream env call = Replied code' (Some responseData)
              /\ statusOk code' = true
              /\ payload (fst result) = responseData)
    /\ (status (fst result) <> 200 ->
        jsonTruthy (getProperty "error" (payload (fst result))) = true)
    /\ (forall call code' responseData,
          snd result = [call] ->
          upstream env call = Replied code' (Some responseData) ->
          statusOk code' = false -> responseData <> JNull ->
          status (fst result) = code'
          /\ getProperty "details" (payload (fst result)) = Some responseData)).
  { intros code message Hcode Hok Hmessage result. subst result. cbn [fst snd status payload].
    split; [congruence|].
    split; [split; [congruence | intros (c & k & d & H & _); discriminate]|].
    split; [intros _; cbn [errorPayload getProperty lookup String.eqb Ascii.eqb Bool.eqb];
            exact Hmessage|].
    intros c k d H. discriminate. }
  unfold handler.
  destruct (negb (String.eqb (method request) "POST"));
    [apply Hrefusal; [lia | reflexivity | reflexivity]|].
  destruct (negb (Js.truthy (orEmpty (API_KEY env))));
    [apply Hrefusal; [lia | reflexivity | reflexivity]|].
  destruct (body request) as [requestBody|];
    [|apply Hrefusal; [lia | reflexivity | reflexivity]].
  destruct (isNull requestBody);
    [apply Hrefusal; [lia | reflexivity | reflexivity]|].
  destruct (requiredFields requestBody) as [[model contents]|];
    [|apply Hrefusal; [lia | reflexivity | reflexivity]].
  match goal with |- context [forward env ?c] => set (call := c) end.
  destruct (Hforward call) as (H1 & H2 & H3 & H4).
  rewrite forward_one_call.
  split; [exact H1|]. split.
  - rewrite H2. split.
    + intros (code & d & H). now exists call, code, d.
    + intros (c & code & d & Hc & H). injection Hc as <-. now exists code, d.
  - split; [exact H3|].
    intros c code d Hc. injection Hc as <-. apply H4.
Qed.

Lemma handler_forwards_config_witness :
  In Fixture.editCall
     (snd (handler Fixture.proxyEnv (mkProxyRequest "POST" (Some Fixture.editBody))))
  /\ lookup "responseModalities" (upstream_body Fixture.editCall) = None
  /\ upstream_key Fixture.editCall = "secret".
Proof.
  assert (Hin : In Fixture.editCall
                  (snd (handler Fixture.proxyEnv
                          (mkProxyRequest "POST" (Some Fixture.editBody)))))
    by (left; vm_compute; reflexivity).
  split; [exact Hin|].
  destruct (handler_forwards_config Fixture.proxyEnv
              (mkProxyRequest "POST" (Some Fixture.editBody)) Fixture.editCall Hin)
    as (requestBody & _ & _ & Hkey & Hmodalities & _).
  split; [exact Hmodalities | exact Hkey].
Defined.

(** ** The magic selection *)







(** ** The adjustment panel *)


(** ** Typing a size *)





(** ** A current version at all times *)

Lemma historyChange_current (s s' : AppState) :
  historyInvariant s -> historyChange s s' ->
  (history s = [] /\ historyIndex s = -1)
  \/ 0 <= historyIndex s <= Z.of_nat (length (history s)) - 1 ->
  (history s' = [] /\ historyIndex s' = -1)
  \/ 0 <= historyIndex s' <= Z.of_nat (length (history s')) - 1.
Proof.
  intros Hinv [Hh Hi|Hh Hi|file Hh Hi|file Hh Hi|Hh Hi] Hcur.
  - rewrite Hh, Hi. exact Hcur.
  - right. rewrite Hh. exact Hi.
  - right. rewrite Hh, Hi. apply addImageToHistory_invariant.
  - right. rewrite Hh, Hi. simpl. lia.
  - left. now split.
Qed.

(** In every state the controller reaches, the history is empty exactly
    when the index is -1, and otherwise the index points at a version: there
    is a current image whenever there is a history, and the first version,
    the one the comparison shows, is there too. *)
Theorem current_version_exists (events : list Event) :
  (history (run events initialState) = []
   <-> historyIndex (run events initialState) = -1)
  /\ (history (run events initialState) <> [] ->
      (exists image, currentImage (run events initialState) = Some image)
      /\ (exists first, originalImage (run events initialState) = Some first))
  /\ (history (run events initialState) = [] ->
      currentImage (run events initialState) = None
      /\ canUndo (run events initialState) = false
      /\ canRedo (run events initialState) = false).
Proof.
  assert (Hcur : forall s, reachable s ->
            (history s = [] /\ historyIndex s = -1)
            \/ 0 <= historyIndex s <= Z.of_nat (length (history s)) - 1).
  { induction 1 as [|s e Hs IH].
    - left. split; reflexivity.
    - apply historyChange_current with s; [| |exact IH].
      + now apply reachable_invariant.
      + apply step_change. now apply reachable_invariant. }
  pose proof (Hcur _ (run_reachable events initialState reachable_initial)) as H.
  remember (run events initialState) as s eqn:Hs. clear Hs Hcur.
  split; [|split].
  - destruct H as [[Hh Hi] | Hi]; [tauto|].
    split; intros H'; [rewrite H' in Hi; simpl in Hi; lia | lia].
  - intros Hne. destruct H as [[Hh _] | Hi]; [contradiction|].
    unfold currentImage, originalImage, Js.index.
    replace (historyIndex s <? 0) with false by (symmetry; apply Z.ltb_ge; lia).
    replace (0 <? 0) with false by reflexivity.
    split.
    + destruct (nth_error (history s) (Z.to_nat (historyIndex s))) as [image|] eqn:Hnth;
        [now exists image|].
      apply nth_error_None in Hnth. lia.
    + destruct (history s) as [|first rest]; [contradiction|]. now exists first.
  - intros Hempty. destruct H as [[_ Hi] | Hi];
      [|rewrite Hempty in Hi; simpl in Hi; lia].
    unfold currentImage, canUndo, canRedo. rewrite Hempty, Hi. repeat split.
Qed.

(** ** The raster a crop commits *)



(** ** A generative edit that goes through *)

Lemma layerCleared_clearRect (canvas : option Canvas) :
  layerCleared (option_map clearRect canvas).
Proof.
  destruct canvas as [c|]; [|exact I].
  simpl. unfold clearRect. cbn [cv_pixels].
  apply Forall_forall. intros p Hp. apply in_map_iff in Hp.
  now destruct Hp as (x & <- & _).
Qed.

(** When [handleGenerate] has sent its request and the service has answered
    with an image, that image is the current version, one step after the
    version edited and with nothing to redo; the instruction is appended to
    the ledger as a retouch and stays in the prompt field; both layers are
    cleared and the busy flag and the error are down. As the edit layer is
    now empty, a second click on the button sends nothing. *)
Theorem generate_success
    (env : GenerateEnv) (file : File) (s s' : AppState) (requests : list Request) :
  gen_reply env = Resolved file ->
  handleGenerate env s = (s', requests) ->
  requests <> [] ->
  currentImage s' = Some file
  /\ historyIndex s' = historyIndex s + 1
  /\ canRedo s' = false
  /\ promptHistory s' = promptHistory s ++ [mkItem ledger_retouch (prompt s)]
  /\ prompt s' = prompt s
  /\ masksCleared s'
  /\ isLoading s' = false
  /\ error s' = None
  /\ outputSize s' = outputSize s
  /\ (forall env', snd (handleGenerate env' s') = []).
Proof.
  intros Hreply Hrun Hsent.
  assert (Hshape : exists image,
    currentImage s = Some image
    /\ Js.truthy (Js.trim (prompt s)) = true
    /\ s' = (s |> setIsLoading true |> setError None
               |> addImageToHistory file
               |> addPromptToHistory ledger_retouch (prompt s)
               |> clearMasks |> setIsLoading false)).
  { revert Hrun. unfold handleGenerate. rewrite Hreply.
    destruct (currentImage s) as [image|];
      [|intros H; injection H as _ <-; contradiction].
    destruct (Js.truthy (Js.trim (prompt s))); cbn [negb];
      [|intros H; injection H as _ <-; contradiction].
    exists image. split; [reflexivity|]. split; [reflexivity|].
    revert Hrun. repeat break_match; intros H; injection H as H1 H2;
      try (subst requests; contradiction).
    all: now subst s'. }
  destruct Hshape as (image & Himage & Hprompt & ->).
  pose proof (index_some_bounds _ _ _ _ Himage) as Hbounds.
  destruct s as [h i p l e tab cs cc o f m ec pc d tool he hp ph ca cf].
  cbn [history historyIndex prompt] in Hbounds, Hprompt.
  destruct (push_slice_current h i file Hbounds) as [Hlen Hlast].
  cbv zeta in Hlen, Hlast.
  split; [unfold currentImage; project; exact Hlast|].
  split; [project; exact Hlen|].
  split; [unfold canRedo; project; apply Z.ltb_ge; lia|].
  split; [reflexivity|].
  split; [reflexivity|].
  split.
  { unfold masksCleared. project.
    repeat split; apply layerCleared_clearRect. }
  split; [reflexivity|].
  split; [reflexivity|].
  split; [reflexivity|].
  intros env'. unfold handleGenerate, currentImage. project.
  rewrite Hlast, Hprompt. reflexivity.
Qed.

Lemma generate_success_witness :
  currentImage Sample.afterGenerate = Some Sample.versionD
  /\ masksCleared Sample.afterGenerate.
Proof.
  assert (Hrun : handleGenerate Sample.generateEnv Fixture.readyToGenerate
                 = (Sample.afterGenerate, [Fixture.hatRequest]))
    by (vm_compute; reflexivity).
  destruct (generate_success Sample.generateEnv Sample.versionD
              Fixture.readyToGenerate Sample.afterGenerate [Fixture.hatRequest]
              eq_refl Hrun)
    as (Hcurrent & _ & _ & _ & _ & Hmasks & _).
  - discriminate.
  - split; [exact Hcurrent | exact Hmasks].
Defined.
